(** * blender-llm-addin-V2: the generation-and-execution pipeline

    A shallow embedding of [blender-llm-addin-V2.py]: the scene snapshot
    reader ([describe_scene]), the provider adapters ([openai_agent],
    [llm_agent], [is_cloud_model]), the code extraction and sanitization
    gate ([preprocess_code]), the CODE worker ([ai_code_worker_thread]) and
    the drain callback ([process_queue_timer]).

    Conventions.
    - A Python [str] is a list of Unicode code points ([pystr]).
    - A call that may raise returns an [outcome]; [try]/[except] is a match
      on it.
    - Library calls whose result the program cannot compute itself (the
      Python parser, the model providers, [exec], [round] and the [repr] of
      a float) are variables of the enclosing section.
    - The process-wide state (the execution queue, the timers registered
      with the host, the host's scene data) is a record that is passed
      along.
    - [print] only writes to the console; it is left out. *)

From Stdlib Require Import List NArith String Ascii Bool Lia Floats.
From Stdlib Require Import DecimalString.
Import ListNotations.

Local Open Scope N_scope.
Local Open Scope list_scope.

(* ================================================================== *)
(** * Python strings *)

Definition char := N.
Definition pystr := list char.

(** An ASCII literal as a Python string. *)
Definition py (s : string) : pystr :=
  map N_of_ascii (list_ascii_of_string s).
Arguments py s%_string.

Definition NL : char := 10.
Definition TAB : char := 9.
Definition SP : char := 32.
Definition BACKTICK : char := 96.

(** [s.startswith(prefix)]. *)
Fixpoint startswith (s prefix : pystr) {struct prefix} : bool :=
  match prefix with
  | [] => true
  | p :: prefix' =>
      match s with
      | [] => false
      | c :: s' => (c =? p) && startswith s' prefix'
      end
  end.

(** [s.endswith(suffix)]. *)
Definition endswith (s suffix : pystr) : bool :=
  startswith (rev s) (rev suffix).

(** [sub in s]. *)
Fixpoint contains (s sub : pystr) : bool :=
  startswith s sub ||
  match s with
  | [] => false
  | _ :: s' => contains s' sub
  end.

(** [a == b] on strings. *)
Fixpoint str_eqb (a b : pystr) : bool :=
  match a, b with
  | [], [] => true
  | x :: a', y :: b' => (x =? y) && str_eqb a' b'
  | _, _ => false
  end.

(** [x in xs] for a list of strings. *)
Definition str_in (x : pystr) (xs : list pystr) : bool :=
  existsb (str_eqb x) xs.

(** What follows the leftmost occurrence of [pat] in [s]. *)
Fixpoint after_first (s pat : pystr) : option pystr :=
  if startswith s pat then Some (skipn (List.length pat) s)
  else match s with
       | [] => None
       | _ :: s' => after_first s' pat
       end.

(** What precedes the leftmost occurrence of [pat] in [s]. *)
Fixpoint before_first (s pat : pystr) : option pystr :=
  if startswith s pat then Some []
  else match s with
       | [] => None
       | c :: s' => option_map (cons c) (before_first s' pat)
       end.

(** [str.isspace] on one code point: CPython's [_PyUnicode_IsWhitespace]. *)
Definition isspace (c : char) : bool :=
  ((9 <=? c) && (c <=? 13)) || ((28 <=? c) && (c <=? 32))
  || (c =? 133) || (c =? 160) || (c =? 5760)
  || ((8192 <=? c) && (c <=? 8202))
  || (c =? 8232) || (c =? 8233) || (c =? 8239) || (c =? 8287)
  || (c =? 12288).

Fixpoint dropwhile (f : char -> bool) (s : pystr) : pystr :=
  match s with
  | [] => []
  | c :: s' => if f c then dropwhile f s' else s
  end.

Fixpoint takewhile (f : char -> bool) (s : pystr) : pystr :=
  match s with
  | [] => []
  | c :: s' => if f c then c :: takewhile f s' else []
  end.

Definition lstrip (s : pystr) : pystr := dropwhile isspace s.
Definition rstrip (s : pystr) : pystr := rev (lstrip (rev s)).

(** [s.strip()]. *)
Definition strip (s : pystr) : pystr := rstrip (lstrip s).

(** [s.replace(old, new)] for a one-character [old]. *)
Definition replace (s : pystr) (old : char) (new : pystr) : pystr :=
  flat_map (fun c => if c =? old then new else [c]) s.

(** [s.split("\n")]: never empty, a last line without newline included. *)
Fixpoint split_nl (s : pystr) : list pystr :=
  match s with
  | [] => [[]]
  | c :: s' =>
      if c =? NL then [] :: split_nl s'
      else match split_nl s' with
           | l :: ls => (c :: l) :: ls
           | [] => [[c]]
           end
  end.

(** ["\n".join(lines)]. *)
Fixpoint join_nl (ls : list pystr) : pystr :=
  match ls with
  | [] => []
  | [l] => l
  | l :: ls' => l ++ NL :: join_nl ls'
  end.

(* ================================================================== *)
(** * [textwrap.dedent]

    The regex-based implementation of CPython up to 3.13 (Blender bundles
    3.11), line by line: the multi-line patterns of the library only ever
    match within one line, so they are read on [split_nl text]. *)

Definition is_blank (c : char) : bool := (c =? SP) || (c =? TAB).

(** [_whitespace_only_re.sub('', text)] on one line: a line of blanks
    becomes empty. *)
Definition blank_line (l : pystr) : pystr :=
  if forallb is_blank l then [] else l.

(** [_leading_whitespace_re.findall(text)]: the leading blanks of every
    line that holds something else than blanks. *)
Definition indents (ls : list pystr) : list pystr :=
  map (takewhile is_blank) (filter (fun l => negb (forallb is_blank l)) ls).

(** The [for i, (x, y) in enumerate(zip(margin, indent))] loop: [margin] cut
    at the first position where the two differ, [margin] itself when the
    zip ends first. *)
Fixpoint cut_at_mismatch (margin indent : pystr) : pystr :=
  match margin, indent with
  | x :: margin', y :: indent' =>
      if x =? y then x :: cut_at_mismatch margin' indent' else []
  | _, _ => margin
  end.

(** One round of the loop over [indents]; [None] is Python's [None]. *)
Definition margin_step (margin : option pystr) (indent : pystr)
  : option pystr :=
  match margin with
  | None => Some indent
  | Some m =>
      if startswith indent m then Some m
      else if startswith m indent then Some indent
      else Some (cut_at_mismatch m indent)
  end.

Definition margin_of (ls : list pystr) : option pystr :=
  fold_left margin_step (indents ls) None.

(** [re.sub(r'(?m)^' + margin, '', text)] on one line. *)
Definition remove_margin (margin l : pystr) : pystr :=
  if startswith l margin then skipn (List.length margin) l else l.

Definition dedent (text : pystr) : pystr :=
  let ls := map blank_line (split_nl text) in
  match margin_of ls with
  | Some (c :: m) => join_nl (map (remove_margin (c :: m)) ls)
  | _ => join_nl ls
  end.

(* ================================================================== *)
(** * The code extraction and sanitization gate *)

Definition FENCE : pystr := Eval cbv in py "```".
Definition OPEN_PYTHON : pystr := Eval cbv in py "```python" ++ [NL].
Definition OPEN_PY : pystr := Eval cbv in py "```py" ++ [NL].
Definition OPEN_BARE : pystr := Eval cbv in py "```" ++ [NL].

(** The three patterns, each [opener(.*?)```] under [re.DOTALL]; a pattern
    is kept as its opener. *)
Definition patterns : list pystr := [OPEN_PYTHON; OPEN_PY; OPEN_BARE].

(** [re.search(opener + '(.*?)```', text, re.DOTALL)], as [match.group(1)].
    The search is leftmost, and a leftmost opener with no closing fence
    behind it leaves none for a later opener either; the lazy group ends at
    the first closing fence. *)
Definition re_search (opener text : pystr) : option pystr :=
  match after_first text opener with
  | None => None
  | Some rest => before_first rest FENCE
  end.

(** The [for pattern in patterns] loop: the value of [code] after it. *)
Fixpoint first_match (pats : list pystr) (text : pystr) : option pystr :=
  match pats with
  | [] => None
  | pattern :: pats' =>
      match re_search pattern text with
      | Some group => Some (strip group)
      | None => first_match pats' text
      end
  end.

Definition extract_fenced (text : pystr) : option pystr :=
  first_match patterns text.

Definition IMPORT_BPY : pystr := Eval cbv in py "import bpy".
Definition BPY_DOT : pystr := Eval cbv in py "bpy.".

(** [code] as it reaches the normalization; [None] is the
    "no code found" return. *)
Definition extract_code (text : pystr) : option pystr :=
  match extract_fenced text with
  | Some (c :: code) => Some (c :: code)
  | _ =>
      if contains text IMPORT_BPY || contains text BPY_DOT
      then Some (strip text)
      else None
  end.

Definition FOUR_SPACES : pystr := [SP; SP; SP; SP].

(** [code.replace('\t', '    ')] followed by [textwrap.dedent(code)]. *)
Definition normalize (code : pystr) : pystr :=
  dedent (replace code TAB FOUR_SPACES).

Definition unsafe_libs : list pystr :=
  [py "shutil"; py "subprocess"; py "ctypes"; py "socket"].

Definition imports_lib (code lib : pystr) : bool :=
  contains code (py "import " ++ lib) || contains code (py "from " ++ lib).

(** The [for lib in unsafe_libs] loop: the library it raises for. *)
Definition find_unsafe (code : pystr) : option pystr :=
  find (imports_lib code) unsafe_libs.

(** The exceptions the program handles, all of them derived from
    [Exception]: [SyntaxError] with its subclasses, which has a handler of
    its own, and any other, with its message. *)
Inductive py_exception : Type :=
| SyntaxError (msg : pystr)
| Exception (msg : pystr).

Inductive outcome (A : Type) : Type :=
| Return (a : A)
| Raise (e : py_exception).
Arguments Return {A} a.
Arguments Raise {A} e.

(** What [ast.parse] does on a source text. *)
Inductive parse_outcome : Type :=
| ParseOk
| ParseSyntaxError (msg : pystr)
| ParseOtherError (msg : pystr).

Section Gate.

Variable ast_parse : pystr -> parse_outcome.

(** The body of the [try]. *)
Definition preprocess_code_try (text : pystr) : outcome pystr :=
  match extract_code text with
  | None => Return []
  | Some code =>
      let code := normalize code in
      match find_unsafe code with
      | Some lib =>
          Raise (Exception (py "Unsafe library detected: " ++ lib))
      | None =>
          match ast_parse code with
          | ParseOk => Return code
          | ParseSyntaxError msg => Raise (SyntaxError msg)
          | ParseOtherError msg => Raise (Exception msg)
          end
      end
  end.

Definition preprocess_code (text : pystr) : outcome pystr :=
  match preprocess_code_try text with
  | Return code => Return code
  | Raise (SyntaxError _) => Return []
  | Raise (Exception _) => Return []
  end.

End Gate.

(** The three fence styles a snippet can be wrapped in. *)
Inductive fence_style : Type := FencePython | FencePy | FenceBare.

Definition opener_of (st : fence_style) : pystr :=
  match st with
  | FencePython => OPEN_PYTHON
  | FencePy => OPEN_PY
  | FenceBare => OPEN_BARE
  end.

(** The snippet in a fenced block: opening line, snippet, closing fence on
    a line of its own. *)
Definition wrap (st : fence_style) (snippet : pystr) : pystr :=
  opener_of st ++ snippet ++ NL :: FENCE.

(** [sub] occurs in [s]. *)
Definition occurs (sub s : pystr) : Prop :=
  exists a b, s = a ++ sub ++ b.


(** The import forms the denylist is documented with: [import shutil],
    [from subprocess import X], [import ctypes], [import socket]. *)
Definition names_denylisted_import (code : pystr) : Prop :=
  occurs (py "import shutil") code
  \/ (exists X, occurs (py "from subprocess import " ++ X) code)
  \/ occurs (py "import ctypes") code
  \/ occurs (py "import socket") code.

(* ================================================================== *)
(** * The scene snapshot reader *)

Definition bind {A B : Type} (m : outcome A) (k : A -> outcome B)
  : outcome B :=
  match m with
  | Return a => k a
  | Raise e => Raise e
  end.

Notation "x <- m ;; k" := (bind m (fun x => k))
  (at level 61, m at next level, right associativity).

(** [str(e)]. *)
Definition exn_str (e : py_exception) : pystr :=
  match e with
  | SyntaxError msg => msg
  | Exception msg => msg
  end.

(** A material of the host; reading its name may raise. *)
Record material : Type := { material_name : outcome pystr }.

(** A scene object of the host, as [describe_scene] reads it: every
    attribute read either gives a value or raises. *)
Record bpy_object : Type := {
  name : outcome pystr;
  type : outcome pystr;
  location : outcome (list float);
  rotation_mode : outcome pystr;
  rotation_euler : outcome (list float);
  scale : outcome (list float);
  active_material : outcome (option material)
}.




(** The variable [rot]: the marker string or a tuple of rounded angles. *)
Inductive rot_value : Type :=
| RotMarker (s : pystr)
| RotTuple (angles : list float).

Definition QUATERNION_MARKER : pystr := Eval cbv in py "Quaternion".
Definition SCENE_IS_EMPTY : pystr := Eval cbv in py "Scene is empty.".
Definition MAX_OBJECTS : nat := 50.

Section Scene.

(** [round(c, 2)] and the [repr] of a float. *)
Variable round2 : float -> float.
Variable float_repr : float -> pystr.

(** [", ".join(...)]. *)
Fixpoint join_comma (xs : list pystr) : pystr :=
  match xs with
  | [] => []
  | [x] => x
  | x :: xs' => x ++ py ", " ++ join_comma xs'
  end.

(** The text of a tuple of floats inside an f-string. *)
Definition tuple_str (t : list float) : pystr :=
  match t with
  | [] => py "()"
  | [x] => py "(" ++ float_repr x ++ py ",)"
  | _ => py "(" ++ join_comma (map float_repr t) ++ py ")"
  end.

Definition rounded (v : list float) : list float := map round2 v.

(** The [if obj.rotation_mode == 'QUATERNION'] statement. *)
Definition object_rot (obj : bpy_object) : outcome rot_value :=
  mode <- rotation_mode obj ;;
  if str_eqb mode (py "QUATERNION")
  then Return (RotMarker QUATERNION_MARKER)
  else (angles <- rotation_euler obj ;; Return (RotTuple (rounded angles))).

Definition rot_str (rot : rot_value) : pystr :=
  match rot with
  | RotMarker s => s
  | RotTuple angles => tuple_str angles
  end.

(** [obj.active_material.name if obj.active_material else "None"]. *)
Definition object_mat (obj : bpy_object) : outcome pystr :=
  m <- active_material obj ;;
  match m with
  | Some m => material_name m
  | None => Return (py "None")
  end.

Definition render_line (nm obj_type : pystr) (loc : list float)
  (rot : rot_value) (sc : list float) (mat : pystr) : pystr :=
  py "- Name: " ++ nm ++ py " | Type: " ++ obj_type
  ++ py " | Loc: " ++ tuple_str loc ++ py " | Rot: " ++ rot_str rot
  ++ py " | Scale: " ++ tuple_str sc ++ py " | Mat: " ++ mat.

(** The body of the [try] in the loop of [describe_scene]. *)
Definition object_line (obj : bpy_object) : outcome pystr :=
  obj_type <- type obj ;;
  loc <- location obj ;;
  rot <- object_rot obj ;;
  sc <- scale obj ;;
  mat <- object_mat obj ;;
  nm <- name obj ;;
  Return (render_line nm obj_type (rounded loc) rot (rounded sc) mat).

(** The list [desc] after the loop: [except Exception: continue] drops
    an object whose line raised. *)
Fixpoint collect_lines (objects : list bpy_object) : list pystr :=
  match objects with
  | [] => []
  | obj :: objects' =>
      match object_line obj with
      | Return line => line :: collect_lines objects'
      | Raise _ => collect_lines objects'
      end
  end.


Definition scene_lines (scene_objects : list bpy_object) : list pystr :=
  collect_lines (firstn MAX_OBJECTS scene_objects).

(** [describe_scene()], on [bpy.context.scene.objects]. *)
Definition describe_scene (scene_objects : list bpy_object) : pystr :=
  match scene_lines scene_objects with
  | [] => SCENE_IS_EMPTY
  | desc => join_nl desc
  end.

End Scene.

(* ================================================================== *)
(** * The provider adapters *)

Definition CLOUD_MODELS : list pystr :=
  [py "qwen3-coder:480b-cloud"; py "gpt-oss:120b-cloud";
   py "gpt-oss:20b-cloud"; py "deepseek-v3.1:671b-cloud"].

Definition CLOUD_SUFFIX : pystr := Eval cbv in py "-cloud".

Definition is_cloud_model (model_name : pystr) : bool :=
  str_in model_name CLOUD_MODELS || endswith model_name CLOUD_SUFFIX.

(** A cloud-hosted variant, in the words of the specification: a member
    of the fixed list, or an identifier that ends with [-cloud]. *)
Definition cloud_variant (model_name : pystr) : Prop :=
  In model_name CLOUD_MODELS
  \/ exists stem, model_name = stem ++ CLOUD_SUFFIX.

Record message : Type := { role : pystr; content : pystr }.

(** The [options] dictionary of a local chat call. *)
Record sampling_options : Type := {
  temperature : float;
  num_predict : N
}.

(** The arguments of [ollama.chat]; [chat_options = None] when the call
    passes no [options]. *)
Record chat_request : Type := {
  chat_model : pystr;
  chat_messages : list message;
  chat_options : option sampling_options
}.

(** What [ollama.chat] hands back: a [ChatResponse] with its message
    content (a string, or [None]), or something that fails the
    [response and isinstance(response, ChatResponse)] test. *)
Inductive chat_response : Type :=
| ChatResponse (message_content : option pystr)
| NotAChatResponse.

(** The arguments of [client.chat.completions.create]. *)
Record completion_request : Type := {
  completion_model : pystr;
  completion_messages : list message;
  completion_temperature : float;
  max_tokens : N
}.

Definition CLOUD_OPTIONS : sampling_options :=
  {| temperature := 0x1.999999999999ap-4%float; num_predict := 2048 |}.

Definition ERROR_PREFIX : pystr := Eval cbv in py "Error: ".

Section Providers.

(** The hosted API: [create(...)] followed by
    [response.choices[0].message.content], a string or [None]. *)
Variable completions_create : completion_request -> outcome (option pystr).

(** The local model server. *)
Variable chat : chat_request -> outcome chat_response.

Definition openai_agent (prompt system_prompt model mode : pystr)
  : option pystr :=
  match completions_create
          {| completion_model := model;
             completion_messages :=
               [ {| role := py "system"; content := system_prompt |};
                 {| role := py "user"; content := prompt |} ];
             completion_temperature :=
               if str_eqb mode (py "code")
               then 0x1.999999999999ap-4%float
               else 0x1.6666666666666p-1%float;
             max_tokens := 2048 |}
  with
  | Return text => text
  | Raise e => Some (ERROR_PREFIX ++ exn_str e)
  end.

(** The request [llm_agent] sends. *)
Definition llm_agent_request (option_ prompt system_prompt : pystr)
  : chat_request :=
  let messages :=
    match system_prompt with
    | [] => []
    | _ => [ {| role := py "system"; content := system_prompt |} ]
    end ++ [ {| role := py "user"; content := prompt |} ] in
  if is_cloud_model option_
  then {| chat_model := option_; chat_messages := messages;
          chat_options := Some CLOUD_OPTIONS |}
  else {| chat_model := option_; chat_messages := messages;
          chat_options := None |}.

Definition llm_agent (option_ prompt system_prompt : pystr)
  : option pystr :=
  match chat (llm_agent_request option_ prompt system_prompt) with
  | Return (ChatResponse (Some text)) => Some text
  | Return (ChatResponse None) =>
      (* [len(content)] raises a [TypeError], caught below *)
      Some (ERROR_PREFIX ++ py "object of type 'NoneType' has no len()")
  | Return NotAChatResponse =>
      Some (py "Error: Failed to get valid response")
  | Raise e => Some (ERROR_PREFIX ++ exn_str e)
  end.

End Providers.

(* ================================================================== *)
(** * The worker and the execution handoff queue *)

(** A callback registered with [bpy.app.timers]: the [update_ui] closure
    of [update_log] or of [update_response], or [process_queue_timer]. *)
Inductive timer : Type :=
| SetStatusLog (message : pystr)
| SetResponse (message : pystr)
| ProcessQueueTimer.

(** What a timer callback returns to the host: [None] unregisters it, a
    number asks for another call after that many seconds. *)
Inductive timer_return : Type :=
| TimerDone
| TimerAgain (seconds : float).

Definition MSG_ANALYZING : pystr :=
  Eval cbv in py "Analyzing scene and generating code...".
Definition MSG_PROCESSING : pystr := Eval cbv in py "Processing code...".
Definition MSG_NO_VALID_CODE : pystr :=
  Eval cbv in py "Error: No valid code generated. Check console for details.".
Definition MSG_GENERATION_ERROR : pystr :=
  Eval cbv in py "Error during generation: ".
Definition MSG_EXECUTING : pystr := Eval cbv in py "Executing Code...".
Definition MSG_DONE : pystr := Eval cbv in py "Done! Scene updated.".
Definition MSG_EXECUTION_ERROR : pystr := Eval cbv in py "Execution Error: ".
Definition NOT_SUBSCRIPTABLE : pystr :=
  Eval cbv in py "'NoneType' object is not subscriptable".

Section Pipeline.

(** The host's own data (the scene). *)
Variable Host : Type.

(** The process-wide state. [execution_queue] has its oldest entry
    first; [timers] lists the registered callbacks, oldest first. *)
Record world : Type := {
  execution_queue : list pystr;
  timers : list timer;
  host : Host
}.

Definition register (t : timer) (w : world) : world :=
  {| execution_queue := execution_queue w;
     timers := timers w ++ [t];
     host := host w |}.

(** [execution_queue.put(code)]. *)
Definition put (code : pystr) (w : world) : world :=
  {| execution_queue := execution_queue w ++ [code];
     timers := timers w;
     host := host w |}.

Definition update_log (message : pystr) (w : world) : world :=
  register (SetStatusLog message) w.

Definition update_response (message : pystr) (w : world) : world :=
  register (SetResponse message) w.

(** The status messages among the registered callbacks, oldest first. *)
Fixpoint status_messages (ts : list timer) : list pystr :=
  match ts with
  | [] => []
  | SetStatusLog m :: ts' => m :: status_messages ts'
  | _ :: ts' => status_messages ts'
  end.

Variable ast_parse : pystr -> parse_outcome.
Variable completions_create : completion_request -> outcome (option pystr).
Variable chat : chat_request -> outcome chat_response.

(** The fixed policy text (the module constant of that name). *)
Variable DEFENSIVE_RULES : pystr.

Definition code_system_prompt (scene_context_str : pystr) : pystr :=
  join_nl
    [ py "You are an expert Blender Python (bpy) code generator.";
      [];
      DEFENSIVE_RULES;
      [];
      py "Current Scene State:";
      scene_context_str;
      [];
      py "RESPONSE FORMAT:";
      py "- Output ONLY valid, executable Python code";
      py "- Wrap code in ```python blocks";
      py "- No explanations outside code blocks";
      py "- Every operation must be crash-proof";
      [] ].

Definition code_user_message (user_prompt : pystr) : pystr :=
  join_nl
    [ py "Task: " ++ user_prompt;
      [];
      py "Requirements:";
      py "1. Validate all objects, materials, nodes before use";
      py "2. Create missing components safely";
      py "3. Use defensive checks (.get(), 'in' operator)";
      py "4. Never crash - handle all edge cases";
      py "5. Set render engine if modifying materials";
      [];
      py "Generate crash-proof Blender Python code:" ].

(** The adapter call of the worker: the value of [output_text]. *)
Definition generate_code (model_option user_prompt scene_context_str : pystr)
  : option pystr :=
  if str_eqb model_option (py "chatgpt")
  then openai_agent completions_create (code_user_message user_prompt)
         (code_system_prompt scene_context_str) (py "gpt-4o") (py "code")
  else llm_agent chat model_option (code_user_message user_prompt)
         (code_system_prompt scene_context_str).

Definition ai_code_worker_thread
  (model_option user_prompt scene_context_str : pystr) (w : world)
  : world :=
  let w := update_log MSG_ANALYZING w in
  match generate_code model_option user_prompt scene_context_str with
  | None =>
      (* [output_text[:500]] raises a [TypeError] *)
      update_log (MSG_GENERATION_ERROR ++ NOT_SUBSCRIPTABLE) w
  | Some output_text =>
      let w := update_log MSG_PROCESSING w in
      match preprocess_code ast_parse output_text with
      | Return [] => update_log MSG_NO_VALID_CODE w
      | Return clean_code => register ProcessQueueTimer (put clean_code w)
      | Raise e => update_log (MSG_GENERATION_ERROR ++ exn_str e) w
      end
  end.

(** [exec(code)] on the main thread: it may change anything in the
    process, and returns or raises. *)
Variable exec : pystr -> world -> outcome unit * world.

(** One round of the [while] loop, for a queue that is not empty: the
    entry popped is [code], [w] is the state after the pop. *)
Definition run_entry (code : pystr) (w : world) : outcome unit * world :=
  let w := update_log MSG_EXECUTING w in
  let (result, w) := exec code w in
  match result with
  | Return _ => (result, update_log MSG_DONE w)
  | Raise e => (result, update_log (MSG_EXECUTION_ERROR ++ exn_str e) w)
  end.

(** The [while not execution_queue.empty()] loop. It runs for as long as
    entries keep coming, so the model counts rounds: [None] when [fuel]
    rounds did not empty the queue. [ran] lists the entries executed so
    far with what each did, oldest first. *)
Fixpoint drain (fuel : nat) (w : world) (ran : list (pystr * outcome unit))
  : option (world * list (pystr * outcome unit)) :=
  match execution_queue w with
  | [] => Some (w, ran)
  | code :: rest =>
      match fuel with
      | O => None
      | S fuel' =>
          let w := {| execution_queue := rest; timers := timers w;
                      host := host w |} in
          let (result, w) := run_entry code w in
          drain fuel' w (ran ++ [(code, result)])
      end
  end.

Definition process_queue_timer (fuel : nat) (w : world)
  : option (world * list (pystr * outcome unit) * timer_return) :=
  match drain fuel w [] with
  | Some (w', ran) => Some (w', ran, TimerDone)
  | None => None
  end.

End Pipeline.

Arguments execution_queue {Host} w.
Arguments timers {Host} w.
Arguments host {Host} w.

(* ================================================================== *)
(** * Scene statistics *)

Record scene_statistics : Type := {
  total_objects : nat;
  meshes : nat;
  lights : nat;
  cameras : nat;
  empties : nat
}.

(** [len([o for o in objects if o.type == tag])]: the types are read in
    order, and a read that raises ends the count. *)
Fixpoint count_type (tag : pystr) (objects : list bpy_object)
  : outcome nat :=
  match objects with
  | [] => Return O
  | o :: objects' =>
      t <- type o ;;
      n <- count_type tag objects' ;;
      Return (if str_eqb t tag then S n else n)
  end.

(** [get_scene_statistics()], on [bpy.context.scene.objects]; nothing in
    it catches an exception. *)
Definition get_scene_statistics (scene_objects : list bpy_object)
  : outcome scene_statistics :=
  n_meshes <- count_type (py "MESH") scene_objects ;;
  n_lights <- count_type (py "LIGHT") scene_objects ;;
  n_cameras <- count_type (py "CAMERA") scene_objects ;;
  n_empties <- count_type (py "EMPTY") scene_objects ;;
  Return {| total_objects := List.length scene_objects;
            meshes := n_meshes; lights := n_lights;
            cameras := n_cameras; empties := n_empties |}.

(* ================================================================== *)
(** * The Q&A worker *)

(** [str(n)] for a count. *)
Definition str_of_nat (n : nat) : pystr :=
  py (NilEmpty.string_of_uint (Nat.to_uint n)).

Definition stats_str (stats : scene_statistics) : pystr :=
  py "Scene Statistics: " ++ str_of_nat (total_objects stats)
  ++ py " total objects (" ++ str_of_nat (meshes stats)
  ++ py " meshes, " ++ str_of_nat (lights stats)
  ++ py " lights, " ++ str_of_nat (cameras stats) ++ py " cameras)".

Definition QA_SYSTEM_PROMPT : pystr :=
  join_nl
    [ py "You are a helpful Blender scene analysis assistant.";
      py "Provide clear, concise answers about the Blender scene.";
      py "Use the scene context to give accurate information.";
      py "If asked about specific objects, reference them by name.";
      py "Be conversational and helpful." ].

Definition qa_full_prompt (scene_context_str : pystr)
  (stats : scene_statistics) (user_question : pystr) : pystr :=
  py "SCENE CONTEXT:" ++ NL :: scene_context_str ++ NL :: NL
  :: stats_str stats ++ NL :: NL
  :: py "USER QUESTION: " ++ user_question.

(** An entry of [conversation_history]; the answer is whatever the adapter
    returned, a string or [None]. *)
Record qa_entry : Type := {
  question : pystr;
  answer : option pystr
}.

(** A callback registered with [bpy.app.timers], with the message its
    closure holds: for [update_response] that is whatever the adapter
    returned. *)
Inductive callback : Type :=
| StatusLog (message : pystr)
| Response (message : option pystr)
| DrainQueue.

(** The process-wide state the Q&A worker runs in: the execution queue,
    the registered callbacks and the conversation history, oldest first. *)
Record session : Type := {
  queued : list pystr;
  callbacks : list callback;
  conversation_history : list qa_entry
}.

Definition MSG_PREPARING : pystr :=
  Eval cbv in py "Analyzing scene and preparing answer...".
Definition MSG_ANSWER_READY : pystr := Eval cbv in py "Answer ready!".

Section QA.

Variable completions_create : completion_request -> outcome (option pystr).
Variable chat : chat_request -> outcome chat_response.

Definition add_callback (c : callback) (s : session) : session :=
  {| queued := queued s;
     callbacks := callbacks s ++ [c];
     conversation_history := conversation_history s |}.

(** The adapter call of the Q&A worker: the value of [output_text]. *)
Definition generate_answer
  (model_option full_prompt : pystr) : option pystr :=
  if str_eqb model_option (py "chatgpt")
  then openai_agent completions_create full_prompt QA_SYSTEM_PROMPT
         (py "gpt-4o") (py "qa")
  else llm_agent chat model_option full_prompt QA_SYSTEM_PROMPT.

(** [ai_qa_worker_thread]: it reads the statistics off the scene itself,
    outside any [try], so the thread ends with the exception when that
    raises. *)
Definition ai_qa_worker_thread
  (model_option user_question scene_context_str : pystr)
  (scene_objects : list bpy_object) (s : session)
  : outcome unit * session :=
  let s := add_callback (StatusLog MSG_PREPARING) s in
  match get_scene_statistics scene_objects with
  | Raise e => (Raise e, s)
  | Return stats =>
      let output_text :=
        generate_answer model_option
          (qa_full_prompt scene_context_str stats user_question) in
      let s :=
        {| queued := queued s;
           callbacks := callbacks s;
           conversation_history :=
             conversation_history s
             ++ [ {| question := user_question; answer := output_text |} ]
        |} in
      let s := add_callback (Response output_text) s in
      (Return tt, add_callback (StatusLog MSG_ANSWER_READY) s)
  end.

End QA.

(* ================================================================== *)
(** * The model menu of [register] *)

(** [get_ollama_models()], given what listing the local models gives: the
    names, or an exception ([ollama] missing, output that is not JSON). *)
Definition get_ollama_models (listing : outcome (list pystr))
  : list pystr :=
  match listing with
  | Return names => names
  | Raise _ => []
  end.

(** The [items] of the [ai_model] property: identifier, name and
    description. *)
Definition model_items (local_models : list pystr)
  : list (pystr * pystr * pystr) :=
  [(py "chatgpt", py "ChatGPT (OpenAI)", [])]
  ++ map (fun m => (m, m, [])) local_models
  ++ map (fun c => (c, c, []))
       (filter (fun c => negb (str_in c local_models)) CLOUD_MODELS).

Definition identifier (item : pystr * pystr * pystr) : pystr :=
  fst (fst item).

(* ================================================================== *)
(** * Properties and sample inputs used in the statements *)

(** A string that is not empty and starts with something else than white
    space; one that ends so. *)
Definition starts_solid (s : pystr) : Prop :=
  match s with
  | [] => False
  | c :: _ => isspace c = false
  end.

Definition ends_solid (s : pystr) : Prop := starts_solid (rev s).

Definition no_tab (s : pystr) : Prop :=
  forallb (fun c => negb (c =? TAB)) s = true.

(** No newline inside: [s] is one line. *)
Definition one_line (s : pystr) : Prop :=
  forallb (fun c => negb (c =? NL)) s = true.

(** [dedent] without its margin: the lines of blanks emptied. *)
Definition blank_text (s : pystr) : pystr :=
  join_nl (map blank_line (split_nl s)).


(** A cube whose rotation is held as an axis and an angle. *)
Definition axis_angle_cube : bpy_object :=
  {| name := Return (py "Cube");
     type := Return (py "MESH");
     location := Return [0%float; 0%float; 0%float];
     rotation_mode := Return (py "AXIS_ANGLE");
     rotation_euler := Return [0%float; 0%float; 0%float];
     scale := Return [1%float; 1%float; 1%float];
     active_material := Return None |}.

(** A quaternion-mode object whose [rotation_euler] cannot even be
    read. *)
Definition quaternion_cube : bpy_object :=
  {| name := Return (py "Cube");
     type := Return (py "MESH");
     location := Return [0%float; 0%float; 0%float];
     rotation_mode := Return (py "QUATERNION");
     rotation_euler := Raise (Exception (py "no euler"));
     scale := Return [1%float; 1%float; 1%float];
     active_material := Return None |}.

(** An object whose attributes raise when read (a reference to an object
    that the host has removed). *)
Definition removed_object : bpy_object :=
  let gone := Exception (py "StructRNA of type Object has been removed") in
  {| name := Raise gone; type := Raise gone; location := Raise gone;
     rotation_mode := Raise gone; rotation_euler := Raise gone;
     scale := Raise gone; active_material := Raise gone |}.

(** The three status updates of a worker run that the gate turns down. *)
Definition REJECTED_RUN : list timer :=
  [SetStatusLog MSG_ANALYZING; SetStatusLog MSG_PROCESSING;
   SetStatusLog MSG_NO_VALID_CODE].

(** An [exec] for two entries: [raise ValueError] raises, anything else
    returns. *)
Definition exec_sample (code : pystr) (w : world unit)
  : outcome unit * world unit :=
  if str_eqb code (py "raise ValueError")
  then (Raise (Exception (py "ValueError")), w)
  else (Return tt, w).

(* ================================================================== *)
(** * Facts about strings *)

Lemma startswith_app (p s : pystr) : startswith (p ++ s) p = true.
Proof.
  induction p as [|x p IH]; simpl; [reflexivity|].
  now rewrite N.eqb_refl.
Qed.

Lemma startswith_split (s p : pystr) :
  startswith s p = true -> s = p ++ skipn (List.length p) s.
Proof.
  revert s; induction p as [|x p IH]; intros s H; simpl in *.
  - reflexivity.
  - destruct s as [|c s]; [discriminate|].
    apply andb_true_iff in H as [H1 H2].
    apply N.eqb_eq in H1; subst c.
    f_equal; now apply IH.
Qed.

Lemma startswith_longer (s p q : pystr) :
  startswith s (p ++ q) = true -> startswith s p = true.
Proof.
  revert s; induction p as [|x p IH]; intros s H; simpl in *.
  - reflexivity.
  - destruct s as [|c s]; [discriminate|].
    apply andb_true_iff in H as [H1 H2].
    rewrite H1; simpl; now apply IH.
Qed.

Lemma contains_startswith (s sub : pystr) :
  startswith s sub = true -> contains s sub = true.
Proof. intros H; destruct s; simpl; now rewrite H. Qed.

Lemma contains_cons (c : char) (s sub : pystr) :
  contains s sub = true -> contains (c :: s) sub = true.
Proof. intros H; simpl; rewrite H; apply orb_true_r. Qed.

Lemma contains_occurs (s sub : pystr) :
  contains s sub = true <-> occurs sub s.
Proof.
  split.
  - induction s as [|c s IH]; simpl; intros H.
    + rewrite orb_false_r in H.
      exists [], (skipn (List.length sub) []); now apply startswith_split.
    + apply orb_true_iff in H as [H|H].
      * exists [], (skipn (List.length sub) (c :: s)).
        now apply startswith_split.
      * destruct (IH H) as (a & b & E).
        exists (c :: a), b; now rewrite E.
  - intros (a & b & E); subst s.
    induction a as [|c a IH].
    + simpl; apply contains_startswith, startswith_app.
    + simpl app; now apply contains_cons.
Qed.

Lemma contains_false_cons (c : char) (s sub : pystr) :
  contains (c :: s) sub = false ->
  startswith (c :: s) sub = false /\ contains s sub = false.
Proof. simpl; intros H; now apply orb_false_iff in H. Qed.

Lemma occurs_longer (p q s : pystr) : occurs (p ++ q) s -> occurs p s.
Proof.
  intros (a & b & E); exists a, (q ++ b).
  now rewrite E, <- app_assoc.
Qed.

Lemma occurs_nil (sub : pystr) : occurs sub [] -> sub = [].
Proof.
  intros (a & b & E); symmetry in E.
  apply app_eq_nil in E as [_ E]; apply app_eq_nil in E as [E _]; exact E.
Qed.

Lemma contains_longer (s p q : pystr) :
  contains s (p ++ q) = true -> contains s p = true.
Proof.
  rewrite !contains_occurs; apply occurs_longer.
Qed.

Lemma after_first_contains (s pat r : pystr) :
  after_first s pat = Some r -> contains s pat = true.
Proof.
  induction s as [|c s IH]; simpl.
  - destruct (startswith [] pat); [reflexivity | discriminate].
  - destruct (startswith (c :: s) pat); [reflexivity|].
    intros H; rewrite (IH H); apply orb_true_r.
Qed.

Lemma after_first_startswith (s pat : pystr) :
  startswith s pat = true ->
  after_first s pat = Some (skipn (List.length pat) s).
Proof. intros H; destruct s; simpl; now rewrite H. Qed.

Lemma skipn_length_app (p s : pystr) : skipn (List.length p) (p ++ s) = s.
Proof. induction p; simpl; auto. Qed.

Lemma after_first_app (pat s : pystr) : after_first (pat ++ s) pat = Some s.
Proof.
  rewrite after_first_startswith by apply startswith_app.
  now rewrite skipn_length_app.
Qed.

Lemma str_eqb_eq (a b : pystr) : str_eqb a b = true <-> a = b.
Proof.
  revert b; induction a as [|x a IH]; intros [|y b]; simpl;
    try (split; [discriminate | congruence]); try tauto.
  rewrite andb_true_iff, N.eqb_eq, IH.
  split; [intros [-> ->]; reflexivity | intros E; now inversion E].
Qed.

Lemma str_in_In (x : pystr) (xs : list pystr) :
  str_in x xs = true <-> In x xs.
Proof.
  unfold str_in; rewrite existsb_exists; split.
  - intros (y & Hy & E); apply str_eqb_eq in E; now subst.
  - intros H; exists x; split; [assumption | now apply str_eqb_eq].
Qed.

Lemma endswith_suffix (s suffix : pystr) :
  endswith s suffix = true <-> exists stem, s = stem ++ suffix.
Proof.
  unfold endswith; split.
  - intros H; apply startswith_split in H.
    exists (rev (skipn (List.length (rev suffix)) (rev s))).
    rewrite <- (rev_involutive suffix) at 2.
    rewrite <- rev_app_distr, <- H.
    now rewrite rev_involutive.
  - intros (stem & ->); rewrite rev_app_distr; apply startswith_app.
Qed.

(* ================================================================== *)
(** * The gate: what it returns *)

Section GateFacts.

Variable ast_parse : pystr -> parse_outcome.

(** The gate hands every exception of its body back as the empty
    string. *)
Lemma preprocess_code_returns (text : pystr) :
  exists result, preprocess_code ast_parse text = Return result.
Proof.
  unfold preprocess_code.
  destruct (preprocess_code_try ast_parse text) as [code|[msg|msg]];
    eauto.
Qed.

(** A result that is not empty went through every check. *)
Lemma preprocess_code_accepts (text c : pystr) :
  preprocess_code ast_parse text = Return c ->
  c <> [] ->
  exists code,
    extract_code text = Some code /\ c = normalize code
    /\ find_unsafe c = None /\ ast_parse c = ParseOk.
Proof.
  unfold preprocess_code, preprocess_code_try.
  destruct (extract_code text) as [code|]; [|congruence].
  cbv zeta.
  destruct (find_unsafe (normalize code)) as [lib|] eqn:Hlib;
    [congruence|].
  destruct (ast_parse (normalize code)) eqn:Hparse; try congruence.
  intros E _; inversion E; subst c.
  exists code; auto.
Qed.

Lemma preprocess_code_accepted (text code : pystr) :
  extract_code text = Some code ->
  find_unsafe (normalize code) = None ->
  ast_parse (normalize code) = ParseOk ->
  preprocess_code ast_parse text = Return (normalize code).
Proof.
  intros Hx Hu Hp; unfold preprocess_code, preprocess_code_try.
  now rewrite Hx; cbv zeta; rewrite Hu, Hp.
Qed.

Lemma preprocess_code_unsafe (text code : pystr) :
  extract_code text = Some code ->
  find_unsafe (normalize code) <> None ->
  preprocess_code ast_parse text = Return [].
Proof.
  intros Hx Hu; unfold preprocess_code, preprocess_code_try.
  rewrite Hx; cbv zeta.
  destruct (find_unsafe (normalize code)); [reflexivity | congruence].
Qed.

Lemma preprocess_code_unparsable (text code : pystr) :
  extract_code text = Some code ->
  ast_parse (normalize code) <> ParseOk ->
  preprocess_code ast_parse text = Return [].
Proof.
  intros Hx Hp; unfold preprocess_code, preprocess_code_try.
  rewrite Hx; cbv zeta.
  destruct (find_unsafe (normalize code)); [reflexivity|].
  destruct (ast_parse (normalize code)); [congruence | reflexivity ..].
Qed.

Lemma preprocess_code_no_code (text : pystr) :
  extract_code text = None ->
  preprocess_code ast_parse text = Return [].
Proof.
  intros Hx; unfold preprocess_code, preprocess_code_try.
  now rewrite Hx.
Qed.

End GateFacts.

Lemma imports_lib_occurs (code lib : pystr) :
  imports_lib code lib = true <->
  occurs (py "import " ++ lib) code \/ occurs (py "from " ++ lib) code.
Proof.
  unfold imports_lib; rewrite orb_true_iff, !contains_occurs; tauto.
Qed.

Lemma find_unsafe_found (code lib : pystr) :
  In lib unsafe_libs -> imports_lib code lib = true ->
  find_unsafe code <> None.
Proof.
  intros Hin Hlib Hnone.
  pose proof (find_none _ _ Hnone lib Hin) as H; congruence.
Qed.

Lemma denylisted_found (code : pystr) :
  names_denylisted_import code -> find_unsafe code <> None.
Proof.
  intros [H | [(X & H) | [H | H]]].
  - apply (find_unsafe_found code (py "shutil")); [simpl; auto|].
    apply imports_lib_occurs; left; exact H.
  - apply (find_unsafe_found code (py "subprocess")); [simpl; auto|].
    apply imports_lib_occurs; right.
    apply (occurs_longer _ (py " import " ++ X)).
    now rewrite <- app_assoc.
  - apply (find_unsafe_found code (py "ctypes")); [simpl; auto|].
    apply imports_lib_occurs; left; exact H.
  - apply (find_unsafe_found code (py "socket")); [simpl; auto 6|].
    apply imports_lib_occurs; left; exact H.
Qed.

Lemma nothing_denylisted_in_empty : ~ names_denylisted_import [].
Proof.
  intros [H | [(X & H) | [H | H]]]; apply occurs_nil in H; discriminate.
Qed.

(** C1. Whenever the extracted and normalized code holds [import shutil],
    [from subprocess import X], [import ctypes] or [import socket], the gate
    returns the empty string, whether the code came out of a fenced block
    or out of the unfenced fallback ([extract_code] is either); and what the
    gate returns never holds one of these imports. *)
Theorem denylisted_import_is_rejected :
  forall (ast_parse : pystr -> parse_outcome) (text : pystr),
    (forall code,
        extract_code text = Some code ->
        names_denylisted_import (normalize code) ->
        preprocess_code ast_parse text = Return [])
    /\ (forall c,
          preprocess_code ast_parse text = Return c ->
          ~ names_denylisted_import c).
Proof.
  intros ast_parse text; split.
  - intros code Hx Hd.
    apply preprocess_code_unsafe with (code := code); [assumption|].
    now apply denylisted_found.
  - intros c Hc Hd.
    destruct c as [|x c]; [now apply nothing_denylisted_in_empty|].
    destruct (preprocess_code_accepts ast_parse text (x :: c) Hc)
      as (code & _ & _ & Hu & _); [discriminate|].
    now apply (denylisted_found _ Hd).
Qed.

(** C1 on a fenced block and on the fallback: both are turned down, with
    any parser. *)
Example socket_import_rejected_fenced :
  forall ast_parse,
    preprocess_code ast_parse
      (wrap FencePython (py "import socket" ++ NL :: py "import bpy"))
    = Return [].
Proof. intros ast_parse; vm_compute; reflexivity. Qed.

Example subprocess_import_rejected_unfenced :
  forall ast_parse,
    preprocess_code ast_parse
      (py "import bpy" ++ NL :: py "from subprocess import run")
    = Return [].
Proof. intros ast_parse; vm_compute; reflexivity. Qed.

(* ================================================================== *)
(** * Stripping, tab replacement and dedenting *)

Lemma blank_is_space (c : char) : is_blank c = true -> isspace c = true.
Proof.
  unfold is_blank; rewrite orb_true_iff, !N.eqb_eq.
  intros [-> | ->]; reflexivity.
Qed.

Lemma solid_not_blank (c : char) : isspace c = false -> is_blank c = false.
Proof.
  intros H; destruct (is_blank c) eqn:E; [|reflexivity].
  apply blank_is_space in E; congruence.
Qed.

Lemma solid_not_nl (c : char) : isspace c = false -> (c =? NL) = false.
Proof.
  intros H; destruct (c =? NL) eqn:E; [|reflexivity].
  apply N.eqb_eq in E; subst c; discriminate.
Qed.

Lemma solid_not_tab (c : char) : isspace c = false -> (c =? TAB) = false.
Proof.
  intros H; destruct (c =? TAB) eqn:E; [|reflexivity].
  apply N.eqb_eq in E; subst c; discriminate.
Qed.

Lemma starts_solid_app (a b : pystr) :
  starts_solid (a ++ b) -> a <> [] -> starts_solid a.
Proof. destruct a; simpl; [congruence | auto]. Qed.

Lemma ends_solid_snoc (s : pystr) :
  ends_solid s <-> exists s0 c, s = s0 ++ [c] /\ isspace c = false.
Proof.
  unfold ends_solid; split.
  - destruct (rev s) as [|c r] eqn:E; simpl; [tauto|].
    intros H; exists (rev r), c; split; [|assumption].
    now rewrite <- (rev_involutive s), E.
  - intros (s0 & c & -> & H); now rewrite rev_unit.
Qed.

Lemma dropwhile_suffix (f : char -> bool) (s : pystr) :
  exists w, s = w ++ dropwhile f s.
Proof.
  induction s as [|c s (w & IH)]; simpl.
  - now exists [].
  - destruct (f c).
    + exists (c :: w); simpl; now f_equal.
    + now exists [].
Qed.

Lemma lstrip_starts_solid (s : pystr) :
  lstrip s <> [] -> starts_solid (lstrip s).
Proof.
  unfold lstrip; induction s as [|c s IH]; simpl; [congruence|].
  destruct (isspace c) eqn:E; simpl; auto.
Qed.

Lemma lstrip_id (s : pystr) : starts_solid s -> lstrip s = s.
Proof.
  unfold lstrip; destruct s as [|c s]; simpl; [tauto|]; now intros ->.
Qed.

Lemma strip_solid (s : pystr) :
  strip s <> [] -> starts_solid (strip s) /\ ends_solid (strip s).
Proof.
  unfold strip, rstrip, ends_solid; intros Hne.
  set (t := lstrip s) in *.
  set (u := lstrip (rev t)) in *.
  assert (Hu : u <> []) by (intros E; rewrite E in Hne; now apply Hne).
  split.
  - destruct (dropwhile_suffix isspace (rev t)) as (w & Hw).
    fold (lstrip (rev t)) in Hw; fold u in Hw.
    assert (Ht : t = rev u ++ rev w).
    { now rewrite <- (rev_involutive t), Hw, rev_app_distr. }
    apply starts_solid_app with (b := rev w).
    + rewrite <- Ht; apply lstrip_starts_solid.
      fold t; rewrite Ht; intros E.
      apply app_eq_nil in E as [E _].
      apply Hne; exact E.
    + exact Hne.
  - rewrite rev_involutive; now apply lstrip_starts_solid.
Qed.

Lemma strip_id (s : pystr) : starts_solid s -> ends_solid s -> strip s = s.
Proof.
  intros Hs He; unfold strip, rstrip.
  rewrite (lstrip_id s Hs), (lstrip_id (rev s) He).
  apply rev_involutive.
Qed.

Lemma replace_app (a b : pystr) (old : char) (new : pystr) :
  replace (a ++ b) old new = replace a old new ++ replace b old new.
Proof. apply flat_map_app. Qed.

Lemma replace_tabs_rev (s : pystr) :
  rev (replace s TAB FOUR_SPACES) = replace (rev s) TAB FOUR_SPACES.
Proof.
  induction s as [|c s IH]; [reflexivity|].
  simpl rev; rewrite replace_app, <- IH.
  change (replace (c :: s) TAB FOUR_SPACES)
    with ((if c =? TAB then FOUR_SPACES else [c])
            ++ replace s TAB FOUR_SPACES).
  rewrite rev_app_distr; f_equal.
  unfold replace; simpl; rewrite app_nil_r.
  now destruct (c =? TAB).
Qed.

Lemma replace_tabs_starts_solid (s : pystr) :
  starts_solid s -> starts_solid (replace s TAB FOUR_SPACES).
Proof.
  destruct s as [|c s]; simpl; [tauto|].
  intros H; now rewrite (solid_not_tab c H).
Qed.

Lemma replace_tabs_ends_solid (s : pystr) :
  ends_solid s -> ends_solid (replace s TAB FOUR_SPACES).
Proof.
  unfold ends_solid; rewrite replace_tabs_rev.
  apply replace_tabs_starts_solid.
Qed.

Lemma replace_tabs_no_tab (s : pystr) : no_tab (replace s TAB FOUR_SPACES).
Proof.
  unfold no_tab; induction s as [|c s IH]; [reflexivity|].
  change (replace (c :: s) TAB FOUR_SPACES)
    with ((if c =? TAB then FOUR_SPACES else [c])
            ++ replace s TAB FOUR_SPACES).
  rewrite forallb_app; apply andb_true_iff; split; [|exact IH].
  destruct (c =? TAB) eqn:E; simpl; [reflexivity|].
  now rewrite E.
Qed.


Lemma split_nl_nonempty (s : pystr) : split_nl s <> [].
Proof.
  induction s as [|c s IH]; simpl; [discriminate|].
  destruct (c =? NL); [discriminate|].
  destruct (split_nl s); [congruence | discriminate].
Qed.

Lemma join_nl_cons (l : pystr) (ls : list pystr) :
  ls <> [] -> join_nl (l :: ls) = l ++ NL :: join_nl ls.
Proof. destruct ls; [congruence | reflexivity]. Qed.

Lemma join_split (s : pystr) : join_nl (split_nl s) = s.
Proof.
  induction s as [|c s IH]; [reflexivity|].
  simpl split_nl; destruct (c =? NL) eqn:E.
  - apply N.eqb_eq in E; subst c.
    rewrite join_nl_cons by apply split_nl_nonempty.
    now rewrite IH.
  - pose proof (split_nl_nonempty s) as Hne.
    destruct (split_nl s) as [|l ls]; [congruence|].
    destruct ls as [|l' ls]; simpl in *; now rewrite <- IH.
Qed.

Lemma split_one_line (l : pystr) : one_line l -> split_nl l = [l].
Proof.
  unfold one_line; induction l as [|c l IH]; [reflexivity|].
  simpl; intros H; apply andb_true_iff in H as [Hc Hl].
  apply negb_true_iff in Hc; rewrite Hc, (IH Hl); reflexivity.
Qed.

Lemma split_line_nl (l rest : pystr) :
  one_line l -> split_nl (l ++ NL :: rest) = l :: split_nl rest.
Proof.
  unfold one_line; induction l as [|c l IH]; [reflexivity|].
  simpl; intros H; apply andb_true_iff in H as [Hc Hl].
  apply negb_true_iff in Hc; rewrite Hc, (IH Hl); reflexivity.
Qed.

Lemma split_join (ls : list pystr) :
  ls <> [] -> Forall one_line ls -> split_nl (join_nl ls) = ls.
Proof.
  induction ls as [|l ls IH]; [congruence|].
  intros _ H; inversion H as [|? ? Hl Hls]; subst.
  destruct ls as [|l' ls].
  - now apply split_one_line.
  - rewrite join_nl_cons by discriminate.
    rewrite split_line_nl by assumption.
    f_equal; apply IH; [discriminate | assumption].
Qed.

Lemma split_lines_one_line (s : pystr) : Forall one_line (split_nl s).
Proof.
  induction s as [|c s IH]; simpl.
  - repeat constructor.
  - destruct (c =? NL) eqn:E.
    + constructor; [reflexivity | assumption].
    + destruct (split_nl s) as [|l ls].
      * repeat constructor; unfold one_line; simpl; now rewrite E.
      * inversion IH; subst; constructor; [|assumption].
        unfold one_line in *; simpl; now rewrite E.
Qed.

Lemma split_nl_snoc (s : pystr) (c : char) :
  (c =? NL) = false ->
  exists init lst,
    split_nl s = init ++ [lst] /\ split_nl (s ++ [c]) = init ++ [lst ++ [c]].
Proof.
  intros Hc; induction s as [|a s (init & lst & E1 & E2)].
  - exists [], []; simpl; now rewrite Hc.
  - simpl; rewrite E1, E2; destruct (a =? NL).
    + now exists ([] :: init), lst.
    + destruct init as [|i init]; simpl.
      * now exists [], (a :: lst).
      * now exists ((a :: i) :: init), lst.
Qed.

Lemma join_nl_snoc (xs : list pystr) (l : pystr) (c : char) :
  join_nl (xs ++ [l ++ [c]]) = join_nl (xs ++ [l]) ++ [c].
Proof.
  induction xs as [|x xs IH]; [reflexivity|].
  rewrite <- !app_comm_cons.
  rewrite !join_nl_cons by (destruct xs; discriminate).
  now rewrite IH, <- app_assoc.
Qed.

Lemma blank_line_idem (l : pystr) : blank_line (blank_line l) = blank_line l.
Proof.
  unfold blank_line; destruct (forallb is_blank l) eqn:E; [reflexivity|].
  now rewrite E.
Qed.

Lemma blank_line_one_line (l : pystr) : one_line l -> one_line (blank_line l).
Proof. unfold blank_line; now destruct (forallb is_blank l). Qed.

Lemma blank_line_no_tab (l : pystr) : no_tab l -> no_tab (blank_line l).
Proof. unfold blank_line; now destruct (forallb is_blank l). Qed.

Lemma blank_text_idem (s : pystr) : blank_text (blank_text s) = blank_text s.
Proof.
  unfold blank_text; rewrite split_join.
  - rewrite map_map; f_equal; apply map_ext; intros; apply blank_line_idem.
  - pose proof (split_nl_nonempty s); destruct (split_nl s);
      [congruence | discriminate].
  - pose proof (split_lines_one_line s) as H.
    induction H; constructor; auto using blank_line_one_line.
Qed.

Lemma no_tab_join (ls : list pystr) :
  no_tab (join_nl ls) <-> Forall no_tab ls.
Proof.
  unfold no_tab; induction ls as [|l ls IH]; [split; auto|].
  destruct ls as [|l' ls].
  - simpl; split; [intros; repeat constructor; assumption|].
    now inversion 1.
  - rewrite join_nl_cons by discriminate.
    remember (join_nl (l' :: ls)) as j.
    rewrite forallb_app; simpl.
    rewrite andb_true_iff, IH; split.
    + intros [? ?]; now constructor.
    + now inversion 1.
Qed.

Lemma blank_text_no_tab (s : pystr) : no_tab s -> no_tab (blank_text s).
Proof.
  intros H; rewrite <- (join_split s) in H; apply no_tab_join in H.
  apply no_tab_join; induction H; constructor;
    auto using blank_line_no_tab.
Qed.

Lemma blank_text_starts_solid (s : pystr) :
  starts_solid s -> starts_solid (blank_text s).
Proof.
  destruct s as [|c s]; simpl; [tauto|]; intros H.
  unfold blank_text; simpl split_nl; rewrite (solid_not_nl c H).
  pose proof (split_nl_nonempty s) as Hne.
  destruct (split_nl s) as [|l ls]; [congruence|].
  simpl map; unfold blank_line at 1; simpl forallb.
  rewrite (solid_not_blank c H); simpl.
  destruct (map blank_line ls); exact H.
Qed.

Lemma blank_text_ends_solid (s : pystr) :
  ends_solid s -> ends_solid (blank_text s).
Proof.
  rewrite !ends_solid_snoc; intros (s0 & c & -> & H).
  destruct (split_nl_snoc s0 c (solid_not_nl c H))
    as (init & lst & _ & E).
  unfold blank_text; rewrite E, map_app; simpl map.
  assert (Hb : blank_line (lst ++ [c]) = lst ++ [c]).
  { unfold blank_line; rewrite forallb_app; simpl.
    now rewrite (solid_not_blank c H), andb_false_r. }
  rewrite Hb, join_nl_snoc; eauto.
Qed.

(** A text that starts with something else than white space has no margin
    to remove. *)
Lemma fold_margin_empty (inds : list pystr) :
  fold_left margin_step inds (Some []) = Some [].
Proof. induction inds as [|i inds IH]; simpl; auto. Qed.

Lemma blank_line_solid (c : char) (l : pystr) :
  is_blank c = false -> blank_line (c :: l) = c :: l.
Proof. intros H; unfold blank_line; simpl; now rewrite H. Qed.

Lemma margin_of_solid (c : char) (l : pystr) (rest : list pystr) :
  is_blank c = false -> margin_of ((c :: l) :: rest) = Some [].
Proof.
  intros H; unfold margin_of, indents; simpl.
  rewrite H; simpl; rewrite H; simpl.
  apply fold_margin_empty.
Qed.

Lemma dedent_starts_solid (s : pystr) :
  starts_solid s -> dedent s = blank_text s.
Proof.
  destruct s as [|c s]; simpl; [tauto|]; intros H.
  pose proof (solid_not_blank c H) as Hb.
  assert (E : exists l ls, split_nl (c :: s) = (c :: l) :: ls).
  { simpl; rewrite (solid_not_nl c H).
    pose proof (split_nl_nonempty s) as Hne.
    destruct (split_nl s) as [|l ls]; [congruence | eauto]. }
  destruct E as (l & ls & E).
  unfold dedent, blank_text; rewrite E; cbv zeta.
  change (map blank_line ((c :: l) :: ls))
    with (blank_line (c :: l) :: map blank_line ls).
  rewrite (blank_line_solid c l Hb).
  now rewrite (margin_of_solid c l _ Hb).
Qed.

(** What the gate normalizes is a stripped string; normalizing it again
    changes nothing. *)
Lemma normalize_stripped (x : pystr) :
  strip x <> [] ->
  let c := normalize (strip x) in
  starts_solid c /\ ends_solid c /\ no_tab c /\ blank_text c = c.
Proof.
  intros Hne; destruct (strip_solid x Hne) as [Hs He].
  apply replace_tabs_starts_solid in Hs; apply replace_tabs_ends_solid in He.
  unfold normalize; rewrite (dedent_starts_solid _ Hs); cbv zeta.
  repeat split.
  - now apply blank_text_starts_solid.
  - now apply blank_text_ends_solid.
  - apply blank_text_no_tab, replace_tabs_no_tab.
  - apply blank_text_idem.
Qed.


(* ================================================================== *)
(** * Extraction from a fenced block *)

Lemma no_fence_start (s r : pystr) :
  contains s FENCE = false -> startswith (s ++ NL :: r) FENCE = false.
Proof.
  destruct s as [|c [|c1 [|c2 s]]]; intros H; simpl in *;
    try reflexivity; try apply andb_false_r.
  - now rewrite !andb_false_r.
  - apply orb_false_iff in H as [H _]; exact H.
Qed.

Lemma before_first_skip (c : char) (s pat : pystr) :
  startswith (c :: s) pat = false ->
  before_first (c :: s) pat = option_map (cons c) (before_first s pat).
Proof. intros H; simpl; now rewrite H. Qed.

Lemma after_first_skip (c : char) (s pat : pystr) :
  startswith (c :: s) pat = false ->
  after_first (c :: s) pat = after_first s pat.
Proof. intros H; simpl; now rewrite H. Qed.

Lemma before_closing_fence (s : pystr) :
  contains s FENCE = false ->
  before_first (s ++ NL :: FENCE) FENCE = Some (s ++ [NL]).
Proof.
  induction s as [|c s IH]; intros H; [reflexivity|].
  pose proof (no_fence_start (c :: s) FENCE H) as Hs.
  apply contains_false_cons in H as [_ H].
  simpl app in *; rewrite (before_first_skip _ _ _ Hs), (IH H).
  reflexivity.
Qed.

Lemma no_opener_in_fence_free (opener s : pystr) :
  In opener patterns ->
  contains s FENCE = false ->
  after_first (s ++ NL :: FENCE) opener = None.
Proof.
  intros Hop; induction s as [|c s IH]; intros H.
  - destruct Hop as [<- | [<- | [<- | []]]]; reflexivity.
  - pose proof (no_fence_start (c :: s) FENCE H) as Hs.
    apply contains_false_cons in H as [_ H].
    simpl app in *; rewrite after_first_skip; [now apply IH|].
    destruct (startswith (c :: s ++ NL :: FENCE) opener) eqn:E;
      [|reflexivity].
    rewrite <- Hs; symmetry.
    destruct Hop as [<- | [<- | [<- | []]]];
      [ apply (startswith_longer _ FENCE (skipn 3 OPEN_PYTHON))
      | apply (startswith_longer _ FENCE (skipn 3 OPEN_PY))
      | apply (startswith_longer _ FENCE (skipn 3 OPEN_BARE)) ];
      exact E.
Qed.

Lemma dropwhile_app (f : char -> bool) (s t : pystr) :
  dropwhile f (s ++ t)
  = match dropwhile f s with
    | [] => dropwhile f t
    | _ => dropwhile f s ++ t
    end.
Proof.
  induction s as [|c s IH]; simpl; [now destruct (dropwhile f t)|].
  destruct (f c); [exact IH | reflexivity].
Qed.

Lemma strip_snoc_space (s : pystr) (c : char) :
  isspace c = true -> strip (s ++ [c]) = strip s.
Proof.
  intros Hc; unfold strip, rstrip, lstrip at 2 4.
  rewrite dropwhile_app.
  destruct (dropwhile isspace s) as [|x t] eqn:E.
  - simpl; now rewrite Hc.
  - rewrite rev_unit; unfold lstrip; simpl; now rewrite Hc.
Qed.

(** A snippet without a fence in it comes back out of each of the three
    fence styles, stripped. *)
Lemma extract_fenced_wrap (st : fence_style) (snippet : pystr) :
  contains snippet FENCE = false ->
  extract_fenced (wrap st snippet) = Some (strip snippet).
Proof.
  intros H.
  pose proof (before_closing_fence snippet H) as Hclose.
  pose proof (fun o Ho => no_opener_in_fence_free o snippet Ho H) as Hnone.
  assert (Hstrip : strip (snippet ++ [NL]) = strip snippet)
    by now apply strip_snoc_space.
  unfold extract_fenced, patterns, first_match, re_search, wrap.
  destruct st; unfold opener_of.
  - now rewrite after_first_app, Hclose, Hstrip.
  - unfold OPEN_PY at 1; simpl app.
    repeat (rewrite after_first_skip by reflexivity).
    rewrite (Hnone OPEN_PYTHON) by (simpl; auto).
    change (96 :: 96 :: 96 :: 112 :: 121 :: 10 :: snippet ++ NL :: FENCE)
      with (OPEN_PY ++ snippet ++ NL :: FENCE).
    now rewrite after_first_app, Hclose, Hstrip.
  - unfold OPEN_BARE at 1; simpl app.
    repeat (rewrite after_first_skip by reflexivity).
    rewrite (Hnone OPEN_PYTHON) by (simpl; auto).
    repeat (rewrite after_first_skip by reflexivity).
    rewrite (Hnone OPEN_PY) by (simpl; auto).
    change (96 :: 96 :: 96 :: 10 :: snippet ++ NL :: FENCE)
      with (OPEN_BARE ++ snippet ++ NL :: FENCE).
    now rewrite after_first_app, Hclose, Hstrip.
Qed.

Lemma first_match_stripped (pats : list pystr) (text code : pystr) :
  first_match pats text = Some code -> exists group, code = strip group.
Proof.
  induction pats as [|p pats IH]; simpl; [discriminate|].
  destruct (re_search p text) as [group|]; [|exact IH].
  intros E; inversion E; eauto.
Qed.

Lemma extract_code_stripped (text code : pystr) :
  extract_code text = Some code -> exists x, code = strip x.
Proof.
  unfold extract_code.
  destruct (extract_fenced text) as [[|c code']|] eqn:E.
  - destruct (contains text IMPORT_BPY || contains text BPY_DOT);
      [|discriminate].
    intros E'; inversion E'; eauto.
  - intros E'; inversion E'; subst.
    now apply first_match_stripped in E.
  - destruct (contains text IMPORT_BPY || contains text BPY_DOT);
      [|discriminate].
    intros E'; inversion E'; eauto.
Qed.


Lemma extract_code_wrap (st : fence_style) (snippet : pystr) :
  contains snippet FENCE = false ->
  strip snippet <> [] ->
  extract_code (wrap st snippet) = Some (strip snippet).
Proof.
  intros H Hne; unfold extract_code.
  rewrite (extract_fenced_wrap st snippet H).
  destruct (strip snippet); [congruence | reflexivity].
Qed.

(* ================================================================== *)
(** * The gate: running it on its own output, fence styles, syntax *)







(** C9, as stated, fails: the gate parses the extracted code after
    stripping and dedenting it, not the snippet. With every parser that
    turns down the indented [  x = 1] and accepts [x = 1], as Python's
    does, the fenced [  x = 1] is accepted. *)
Lemma indented_snippet_is_accepted :
  exists snippet,
    forall ast_parse : pystr -> parse_outcome,
      ast_parse snippet <> ParseOk ->
      ast_parse (py "x = 1") = ParseOk ->
      preprocess_code ast_parse (wrap FencePython snippet)
      = Return (py "x = 1")
      /\ preprocess_code ast_parse (wrap FencePython snippet) <> Return [].
Proof.
  exists (py "  x = 1"); intros ast_parse _ Hok.
  assert (H : preprocess_code ast_parse (wrap FencePython (py "  x = 1"))
              = Return (py "x = 1")).
  { apply (preprocess_code_accepted ast_parse _ (py "x = 1"));
      [vm_compute; reflexivity | vm_compute; reflexivity | exact Hok]. }
  split; [exact H | rewrite H; discriminate].
Qed.

(** C9, amended. The gate returns a value for every input, it never
    raises; it returns the empty string whenever the code it extracted and
    normalized does not parse. For a snippet that is not blank and has no
    triple backtick, in a fenced block of any style, that code is the
    snippet stripped, with tabs replaced and dedented. *)
Theorem unparsable_code_is_rejected :
  forall (ast_parse : pystr -> parse_outcome) (text : pystr),
    (exists result, preprocess_code ast_parse text = Return result)
    /\ (forall code,
          extract_code text = Some code ->
          ast_parse (normalize code) <> ParseOk ->
          preprocess_code ast_parse text = Return [])
    /\ (forall st snippet,
          text = wrap st snippet ->
          contains snippet FENCE = false ->
          strip snippet <> [] ->
          ast_parse (normalize (strip snippet)) <> ParseOk ->
          preprocess_code ast_parse text = Return []).
Proof.
  intros ast_parse text; split; [apply preprocess_code_returns|].
  split; [intros code; apply preprocess_code_unparsable|].
  intros st snippet -> Hfence Hne Hparse.
  apply preprocess_code_unparsable with (code := strip snippet);
    [|exact Hparse].
  now apply extract_code_wrap.
Qed.

(** C9 on a fenced block: an unbalanced parenthesis, with any parser that
    turns it down. *)
Example unparsable_fenced_block_rejected :
  forall ast_parse : pystr -> parse_outcome,
    ast_parse (py "bpy.ops.mesh.primitive_cube_add(") <> ParseOk ->
    preprocess_code ast_parse
      (wrap FencePy (py "bpy.ops.mesh.primitive_cube_add("))
    = Return [].
Proof.
  intros ast_parse H.
  apply (preprocess_code_unparsable ast_parse _
           (py "bpy.ops.mesh.primitive_cube_add("));
    [vm_compute; reflexivity | exact H].
Qed.

(* ================================================================== *)
(** * The scene snapshot reader: lines and the empty sentinel *)

Section SceneFacts.

Variable round2 : float -> float.
Variable float_repr : float -> pystr.


Lemma collect_lines_none (objects : list bpy_object) :
  (forall obj, In obj objects ->
               exists e, object_line round2 float_repr obj = Raise e) ->
  collect_lines round2 float_repr objects = [].
Proof.
  induction objects as [|obj objects IH]; intros H; [reflexivity|].
  simpl; destruct (H obj (or_introl eq_refl)) as (e & ->).
  apply IH; intros o Ho; apply H; now right.
Qed.


End SceneFacts.







(** C10. When no object line is produced, [describe_scene] returns the
    sentinel: for the scene without objects, and as well for a scene whose
    objects (the first 50 of them) all raise while they are formatted; the
    two results are the same string. *)
Theorem scene_is_empty_when_no_line :
  forall (round2 : float -> float) (float_repr : float -> pystr)
         (scene_objects : list bpy_object),
    (forall obj, In obj (firstn MAX_OBJECTS scene_objects) ->
                 exists e, object_line round2 float_repr obj = Raise e) ->
    scene_lines round2 float_repr scene_objects = []
    /\ describe_scene round2 float_repr scene_objects = SCENE_IS_EMPTY
    /\ describe_scene round2 float_repr scene_objects
       = describe_scene round2 float_repr [].
Proof.
  intros round2 float_repr scene_objects H.
  assert (E : scene_lines round2 float_repr scene_objects = []).
  { unfold scene_lines; now apply collect_lines_none. }
  unfold describe_scene; rewrite E; repeat split.
Qed.

Lemma scene_is_empty_when_no_line_witness :
  describe_scene (fun c => c) (fun _ => py "0.0")
    [removed_object; removed_object]
  = SCENE_IS_EMPTY.
Proof.
  destruct (scene_is_empty_when_no_line (fun c => c) (fun _ => py "0.0")
              [removed_object; removed_object]) as (_ & H & _).
  - intros obj [<- | [<- | []]];
      exists (Exception (py "StructRNA of type Object has been removed"));
      reflexivity.
  - exact H.
Defined.

(* ================================================================== *)
(** * The local-model adapter: cloud-hosted variants *)

Lemma is_cloud_model_spec (model_name : pystr) :
  is_cloud_model model_name = true <-> cloud_variant model_name.
Proof.
  unfold is_cloud_model, cloud_variant.
  now rewrite orb_true_iff, str_in_In, endswith_suffix.
Qed.

(** C8. The request [llm_agent] sends carries the sampling options
    (temperature 0.1, at most 2048 tokens) exactly when the model is a
    cloud-hosted variant, a member of the fixed list or a name that ends
    with [-cloud]; for any other name it carries no options. *)
Theorem sampling_options_iff_cloud_variant :
  forall (chat : chat_request -> outcome chat_response)
         (option_ prompt system_prompt : pystr),
    let request := llm_agent_request option_ prompt system_prompt in
    (cloud_variant option_ <->
     chat_options request
     = Some {| temperature := 0x1.999999999999ap-4%float;
               num_predict := 2048 |})
    /\ (~ cloud_variant option_ <-> chat_options request = None)
    /\ llm_agent chat option_ prompt system_prompt
       = match chat request with
         | Return (ChatResponse (Some text)) => Some text
         | Return (ChatResponse None) =>
             Some (ERROR_PREFIX
                   ++ py "object of type 'NoneType' has no len()")
         | Return NotAChatResponse =>
             Some (py "Error: Failed to get valid response")
         | Raise e => Some (ERROR_PREFIX ++ exn_str e)
         end.
Proof.
  intros chat option_ prompt system_prompt request.
  subst request; unfold llm_agent, llm_agent_request.
  rewrite <- is_cloud_model_spec.
  destruct (is_cloud_model option_); simpl;
    (split; [|split]); try reflexivity;
    split; intros H; try reflexivity; try discriminate; congruence.
Qed.

Example qwen_cloud_gets_options :
  chat_options (llm_agent_request (py "qwen3-coder:480b-cloud") [] [])
  = Some CLOUD_OPTIONS
  /\ chat_options (llm_agent_request (py "my-tuned-cloud") [] [])
     = Some CLOUD_OPTIONS
  /\ chat_options (llm_agent_request (py "llama3:8b") [] []) = None.
Proof. repeat split. Qed.

(* ================================================================== *)
(** * The worker and the drain callback *)

Section PipelineFacts.

Variable Host : Type.
Variable ast_parse : pystr -> parse_outcome.
Variable completions_create : completion_request -> outcome (option pystr).
Variable chat : chat_request -> outcome chat_response.
Variable DEFENSIVE_RULES : pystr.
Variable exec : pystr -> world Host -> outcome unit * world Host.

(** An adapter that fails hands its error back as text. *)
Lemma failed_adapter_returns_text
  (model_option user_prompt scene_context_str : pystr) (e : py_exception) :
  (if str_eqb model_option (py "chatgpt")
   then forall request, completions_create request = Raise e
   else forall request, chat request = Raise e) ->
  generate_code completions_create chat DEFENSIVE_RULES model_option
    user_prompt scene_context_str
  = Some (ERROR_PREFIX ++ exn_str e).
Proof.
  unfold generate_code, openai_agent, llm_agent.
  destruct (str_eqb model_option (py "chatgpt")); intros H;
    now rewrite H.
Qed.

Lemma run_entry_keeps_queue (code : pystr) (w : world Host) :
  (forall code w0,
      execution_queue (snd (exec code w0)) = execution_queue w0) ->
  execution_queue (snd (run_entry Host exec code w)) = execution_queue w.
Proof.
  intros Hexec; unfold run_entry.
  pose proof (Hexec code (update_log Host MSG_EXECUTING w)) as H.
  destruct (exec code (update_log Host MSG_EXECUTING w)) as [[u|e] w1];
    simpl in *; exact H.
Qed.

Lemma drain_empties (fuel : nat) :
  (forall code w0,
      execution_queue (snd (exec code w0)) = execution_queue w0) ->
  forall (w : world Host) (ran : list (pystr * outcome unit)),
    (List.length (execution_queue w) <= fuel)%nat ->
    exists w' ran',
      drain Host exec fuel w ran = Some (w', ran ++ ran')
      /\ execution_queue w' = []
      /\ map fst ran' = execution_queue w.
Proof.
  intros Hexec; induction fuel as [|fuel IH]; intros w ran Hlen.
  - destruct (execution_queue w) as [|code rest] eqn:E;
      [|simpl in Hlen; lia].
    exists w, []; simpl; rewrite E, app_nil_r; auto.
  - destruct (execution_queue w) as [|code rest] eqn:E.
    + exists w, []; simpl; rewrite E, app_nil_r; auto.
    + simpl; rewrite E.
      set (w0 := {| execution_queue := rest; timers := timers w;
                    host := host w |}).
      pose proof (run_entry_keeps_queue code w0 Hexec) as Hq.
      destruct (run_entry Host exec code w0) as [result w1].
      simpl in Hq.
      destruct (IH w1 (ran ++ [(code, result)])) as (w' & ran' & Hd & He & Hm).
      { rewrite Hq; simpl in Hlen; lia. }
      exists w', ((code, result) :: ran'); repeat split.
      * rewrite Hd; now rewrite <- app_assoc.
      * exact He.
      * simpl; now rewrite Hm, Hq.
Qed.

End PipelineFacts.

(** C2, as stated, fails in its last part: an adapter does not raise, it
    returns its error as the text [Error: ...], and the worker passes that
    text through the gate like any other output. For the error
    [Connection error.] the gate finds no code; the worker then writes its
    three fixed status messages, and none of them holds the error text. *)
Lemma adapter_error_text_is_not_reported :
  exists err : pystr,
    forall (Host : Type) (ast_parse : pystr -> parse_outcome)
           (completions_create : completion_request -> outcome (option pystr))
           (chat : chat_request -> outcome chat_response)
           (DEFENSIVE_RULES model_option user_prompt scene_context_str : pystr)
           (w : world Host),
      (if str_eqb model_option (py "chatgpt")
       then forall request, completions_create request = Raise (Exception err)
       else forall request, chat request = Raise (Exception err)) ->
      let w' :=
        ai_code_worker_thread Host ast_parse completions_create chat
          DEFENSIVE_RULES model_option user_prompt scene_context_str w in
      execution_queue w' = execution_queue w
      /\ timers w' = timers w ++ REJECTED_RUN
      /\ status_messages REJECTED_RUN
         = [MSG_ANALYZING; MSG_PROCESSING; MSG_NO_VALID_CODE]
      /\ forallb (fun m => negb (contains m err))
           (status_messages REJECTED_RUN) = true.
Proof.
  exists (py "Connection error.").
  intros Host ast_parse completions_create chat DEFENSIVE_RULES model_option
    user_prompt scene_context_str w Hfail; cbv zeta.
  unfold ai_code_worker_thread.
  rewrite (failed_adapter_returns_text completions_create chat
             DEFENSIVE_RULES model_option user_prompt scene_context_str
             (Exception (py "Connection error.")) Hfail).
  rewrite preprocess_code_no_code by (vm_compute; reflexivity).
  repeat split; simpl.
  now rewrite <- !app_assoc.
Qed.

(** C2, amended. In a CODE-mode worker run whose adapter output the gate
    turns down, nothing is put on the execution queue, the drain callback
    is not registered, and the last of the status messages written is the
    fixed "no valid code" message. An adapter that fails returns the text
    [Error: ] followed by its error, which takes this same path when the
    gate turns it down. A run whose adapter returns no text at all puts
    nothing on the queue either and ends with the "error during
    generation" status. *)
Theorem rejected_output_is_not_queued :
  forall (Host : Type) (ast_parse : pystr -> parse_outcome)
         (completions_create : completion_request -> outcome (option pystr))
         (chat : chat_request -> outcome chat_response)
         (DEFENSIVE_RULES model_option user_prompt scene_context_str : pystr)
         (w : world Host),
    let output :=
      generate_code completions_create chat DEFENSIVE_RULES model_option
        user_prompt scene_context_str in
    let w' :=
      ai_code_worker_thread Host ast_parse completions_create chat
        DEFENSIVE_RULES model_option user_prompt scene_context_str w in
    (forall output_text,
        output = Some output_text ->
        preprocess_code ast_parse output_text = Return [] ->
        execution_queue w' = execution_queue w /\ host w' = host w
        /\ timers w' = timers w ++ REJECTED_RUN)
    /\ (forall e,
          (if str_eqb model_option (py "chatgpt")
           then forall request, completions_create request = Raise e
           else forall request, chat request = Raise e) ->
          output = Some (ERROR_PREFIX ++ exn_str e))
    /\ (output = None ->
        execution_queue w' = execution_queue w /\ host w' = host w
        /\ timers w'
           = timers w
             ++ [SetStatusLog MSG_ANALYZING;
                 SetStatusLog (MSG_GENERATION_ERROR ++ NOT_SUBSCRIPTABLE)]).
Proof.
  intros Host ast_parse completions_create chat DEFENSIVE_RULES model_option
    user_prompt scene_context_str w; cbv zeta.
  unfold ai_code_worker_thread; split; [|split].
  - intros output_text -> ->; simpl.
    repeat split; unfold REJECTED_RUN; now rewrite <- !app_assoc.
  - intros e; apply failed_adapter_returns_text.
  - intros ->; simpl; repeat split; now rewrite <- !app_assoc.
Qed.



(** The run of the witness: the first entry raises, the second one is
    executed all the same, and the status ends with [Done!]. *)
Example drain_after_failure :
  process_queue_timer unit exec_sample 2
    {| execution_queue := [py "raise ValueError"; py "pass"];
       timers := []; host := tt |}
  = Some
      ({| execution_queue := [];
          timers :=
            [SetStatusLog MSG_EXECUTING;
             SetStatusLog (MSG_EXECUTION_ERROR ++ py "ValueError");
             SetStatusLog MSG_EXECUTING; SetStatusLog MSG_DONE];
          host := tt |},
       [(py "raise ValueError", Raise (Exception (py "ValueError")));
        (py "pass", Return tt)],
       TimerDone).
Proof. vm_compute; reflexivity. Qed.

(** An error text that the gate accepts is queued like generated code:
    with a parser that takes [Error: bpy.x] for the annotation it is in
    Python, a hosted adapter failing with [bpy.x] leaves that text on the
    queue and registers the drain callback. *)
Example accepted_error_text_is_queued :
  forall (Host : Type) (ast_parse : pystr -> parse_outcome)
         (completions_create : completion_request -> outcome (option pystr))
         (chat : chat_request -> outcome chat_response)
         (DEFENSIVE_RULES user_prompt scene_context_str : pystr)
         (w : world Host),
    ast_parse (py "Error: bpy.x") = ParseOk ->
    (forall request,
        completions_create request = Raise (Exception (py "bpy.x"))) ->
    let w' :=
      ai_code_worker_thread Host ast_parse completions_create chat
        DEFENSIVE_RULES (py "chatgpt") user_prompt scene_context_str w in
    execution_queue w' = execution_queue w ++ [py "Error: bpy.x"]
    /\ timers w'
       = timers w
         ++ [SetStatusLog MSG_ANALYZING; SetStatusLog MSG_PROCESSING;
             ProcessQueueTimer].
Proof.
  intros Host ast_parse completions_create chat DEFENSIVE_RULES user_prompt
    scene_context_str w Hparse Hfail; cbv zeta.
  unfold ai_code_worker_thread.
  rewrite (failed_adapter_returns_text completions_create chat
             DEFENSIVE_RULES (py "chatgpt") user_prompt scene_context_str
             (Exception (py "bpy.x")) Hfail).
  rewrite (preprocess_code_accepted ast_parse _ (py "Error: bpy.x"));
    [| vm_compute; reflexivity | vm_compute; reflexivity | exact Hparse].
  change (normalize (py "Error: bpy.x")) with (py "Error: bpy.x").
  split; simpl; [reflexivity | now rewrite <- !app_assoc].
Qed.

(* ================================================================== *)
(** * More on the gate *)

Lemma no_tab_not_in (s : pystr) : no_tab s -> ~ In TAB s.
Proof.
  unfold no_tab; intros H Hin.
  rewrite forallb_forall in H; specialize (H TAB Hin); discriminate.
Qed.

Lemma accepted_code_shape (ast_parse : pystr -> parse_outcome)
  (text c : pystr) :
  preprocess_code ast_parse text = Return c -> c <> [] ->
  ast_parse c = ParseOk /\ find_unsafe c = None
  /\ starts_solid c /\ ends_solid c /\ no_tab c /\ blank_text c = c.
Proof.
  intros Hc Hne.
  destruct (preprocess_code_accepts ast_parse text c Hc Hne)
    as (code & Hx & Hnorm & Hsafe & Hparse).
  destruct (extract_code_stripped text code Hx) as (x & ->).
  assert (Hx' : strip x <> []).
  { intros E; apply Hne; rewrite Hnorm, E; reflexivity. }
  destruct (normalize_stripped x Hx') as (Hs & He & Ht & Hb).
  cbv zeta in Hs, He, Ht, Hb; rewrite <- Hnorm in Hs, He, Ht, Hb.
  auto 10.
Qed.

(** X1. Code that the gate returns is code the parser accepted, holds no
    tab character, and has no white space before or after it: stripping it
    again changes nothing. *)
Theorem accepted_code_is_clean :
  forall (ast_parse : pystr -> parse_outcome) (text c : pystr),
    preprocess_code ast_parse text = Return c ->
    c <> [] ->
    ast_parse c = ParseOk /\ ~ In TAB c /\ strip c = c.
Proof.
  intros ast_parse text c Hc Hne.
  destruct (accepted_code_shape ast_parse text c Hc Hne)
    as (Hp & _ & Hs & He & Ht & _).
  repeat split; [exact Hp | now apply no_tab_not_in | now apply strip_id].
Qed.

Lemma accepted_code_is_clean_witness :
  ~ In TAB (py "if bpy:" ++ NL :: py "    pass")
  /\ strip (py "if bpy:" ++ NL :: py "    pass")
     = py "if bpy:" ++ NL :: py "    pass".
Proof.
  destruct (accepted_code_is_clean (fun _ => ParseOk)
              (wrap FencePy (py "if bpy:" ++ NL :: TAB :: py "pass  "))
              (py "if bpy:" ++ NL :: py "    pass"))
    as (_ & Htab & Hstrip).
  - vm_compute; reflexivity.
  - discriminate.
  - split; assumption.
Defined.

(** X2. In the gate [textwrap.dedent] never removes indentation: the code
    was stripped before, so its first line has no indentation and the
    common margin is empty. Line by line, normalizing replaces the tabs
    and empties the lines that hold only blanks, nothing else. *)
Theorem normalize_keeps_indentation :
  forall text code : pystr,
    extract_code text = Some code ->
    split_nl (normalize code)
    = map blank_line (split_nl (replace code TAB FOUR_SPACES)).
Proof.
  intros text code Hx.
  destruct (extract_code_stripped text code Hx) as (x & ->).
  destruct (strip x) as [|c s] eqn:E; [reflexivity|].
  assert (Hne : strip x <> []) by (rewrite E; discriminate).
  destruct (strip_solid x Hne) as [Hs _]; rewrite E in Hs.
  apply replace_tabs_starts_solid in Hs.
  unfold normalize; rewrite (dedent_starts_solid _ Hs).
  unfold blank_text; apply split_join.
  - pose proof (split_nl_nonempty (replace (c :: s) TAB FOUR_SPACES)).
    destruct (split_nl (replace (c :: s) TAB FOUR_SPACES));
      [congruence | discriminate].
  - pose proof (split_lines_one_line (replace (c :: s) TAB FOUR_SPACES))
      as H.
    induction H; constructor; auto using blank_line_one_line.
Qed.

(** A block whose two lines are both indented: the first line loses its
    indentation to [strip], the second one keeps it. *)
Lemma normalize_keeps_indentation_witness :
  split_nl (normalize (py "a = 1" ++ NL :: py "    b = 2"))
  = [py "a = 1"; py "    b = 2"].
Proof.
  apply (normalize_keeps_indentation
           (wrap FencePython (py "    a = 1" ++ NL :: py "    b = 2"))
           (py "a = 1" ++ NL :: py "    b = 2")).
  vm_compute; reflexivity.
Defined.

Lemma no_fence_no_block (text : pystr) :
  contains text FENCE = false -> extract_fenced text = None.
Proof.
  intros H.
  assert (Hnone : forall opener,
             In opener patterns -> re_search opener text = None).
  { intros opener Hop; unfold re_search.
    destruct (after_first text opener) as [rest|] eqn:E; [|reflexivity].
    apply after_first_contains in E.
    assert (Hf : contains text FENCE = true); [|congruence].
    destruct Hop as [<- | [<- | [<- | []]]];
      [ apply (contains_longer _ FENCE (skipn 3 OPEN_PYTHON))
      | apply (contains_longer _ FENCE (skipn 3 OPEN_PY))
      | apply (contains_longer _ FENCE (skipn 3 OPEN_BARE)) ];
      exact E. }
  unfold extract_fenced, patterns, first_match.
  now rewrite !Hnone by (simpl; auto).
Qed.

(** X3. A response without a triple backtick that mentions neither
    [import bpy] nor [bpy.] holds no code for the gate: the result is the
    empty string, and the parser is not even asked. *)
Theorem plain_text_is_no_code :
  forall (ast_parse : pystr -> parse_outcome) (text : pystr),
    contains text FENCE = false ->
    contains text IMPORT_BPY = false ->
    contains text BPY_DOT = false ->
    preprocess_code ast_parse text = Return [].
Proof.
  intros ast_parse text Hf Hi Hb.
  apply preprocess_code_no_code; unfold extract_code.
  now rewrite (no_fence_no_block text Hf), Hi, Hb.
Qed.

Lemma plain_text_is_no_code_witness :
  preprocess_code (fun _ => ParseOk) (py "x = 1") = Return [].
Proof.
  apply (plain_text_is_no_code (fun _ => ParseOk) (py "x = 1"));
    vm_compute; reflexivity.
Defined.

Lemma before_first_startswith (s pat : pystr) :
  startswith s pat = true -> before_first s pat = Some [].
Proof. intros H; destruct s; simpl; now rewrite H. Qed.

Lemma before_closing_fence_then (s post : pystr) :
  contains s FENCE = false ->
  before_first (s ++ NL :: FENCE ++ post) FENCE = Some (s ++ [NL]).
Proof.
  induction s as [|c s IH]; intros H.
  - change ([] ++ NL :: FENCE ++ post) with (NL :: (FENCE ++ post)).
    rewrite before_first_skip by reflexivity.
    now rewrite before_first_startswith by apply startswith_app.
  - pose proof (no_fence_start (c :: s) (FENCE ++ post) H) as Hs.
    apply contains_false_cons in H as [_ H].
    simpl app in *; rewrite (before_first_skip _ _ _ Hs), (IH H).
    reflexivity.
Qed.

Lemma python_opener_not_early (s r : pystr) :
  contains s FENCE = false -> s <> [] ->
  startswith (s ++ OPEN_PYTHON ++ r) OPEN_PYTHON = false.
Proof.
  destruct s as [|c [|c1 [|c2 s]]]; intros H Hne; [congruence | | |].
  - simpl; apply andb_false_r.
  - simpl; now rewrite !andb_false_r.
  - apply contains_false_cons in H as [H _].
    simpl in *.
    destruct (c =? 96), (c1 =? 96), (c2 =? 96); simpl in *;
      try reflexivity; discriminate.
Qed.

Lemma python_opener_after_prose (pre rest : pystr) :
  contains pre FENCE = false ->
  after_first (pre ++ OPEN_PYTHON ++ rest) OPEN_PYTHON = Some rest.
Proof.
  induction pre as [|c pre IH]; intros H.
  - exact (after_first_app OPEN_PYTHON rest).
  - pose proof (python_opener_not_early (c :: pre) rest H) as Hs.
    apply contains_false_cons in H as [_ H].
    simpl app in *; rewrite after_first_skip; [now apply IH|].
    apply Hs; discriminate.
Qed.

Lemma extract_python_block (pre snippet post : pystr) :
  contains pre FENCE = false ->
  contains snippet FENCE = false ->
  extract_fenced (pre ++ wrap FencePython snippet ++ post)
  = Some (strip snippet).
Proof.
  intros Hpre Hsn.
  assert (E : pre ++ wrap FencePython snippet ++ post
              = pre ++ OPEN_PYTHON ++ snippet ++ NL :: FENCE ++ post).
  { unfold wrap, opener_of; now rewrite <- !app_assoc. }
  rewrite E; unfold extract_fenced, patterns, first_match, re_search.
  rewrite (python_opener_after_prose pre _ Hpre).
  rewrite (before_closing_fence_then snippet post Hsn).
  now rewrite strip_snoc_space.
Qed.

(** X4. What stands around a [```python] block is ignored: with prose
    without a triple backtick before the block, and anything at all after
    it, the gate gives what it gives for the block alone (for a snippet
    that is not blank and holds no triple backtick). In particular the
    denylist and the parser never see the text after the block. *)
Theorem prose_around_python_block_is_ignored :
  forall (ast_parse : pystr -> parse_outcome) (pre snippet post : pystr),
    contains pre FENCE = false ->
    contains snippet FENCE = false ->
    strip snippet <> [] ->
    extract_fenced (pre ++ wrap FencePython snippet ++ post)
    = Some (strip snippet)
    /\ preprocess_code ast_parse (pre ++ wrap FencePython snippet ++ post)
       = preprocess_code ast_parse (wrap FencePython snippet).
Proof.
  intros ast_parse pre snippet post Hpre Hsn Hne.
  pose proof (extract_python_block pre snippet post Hpre Hsn) as E.
  split; [exact E|].
  unfold preprocess_code, preprocess_code_try, extract_code.
  rewrite E, (extract_fenced_wrap FencePython snippet Hsn).
  destruct (strip snippet); [congruence | reflexivity].
Qed.

Lemma prose_around_python_block_is_ignored_witness :
  preprocess_code (fun _ => ParseOk)
    (py "Here is the code: " ++ wrap FencePython (py "bpy.ops.wm.quit()")
     ++ py " It needs import socket.")
  = preprocess_code (fun _ => ParseOk)
      (wrap FencePython (py "bpy.ops.wm.quit()")).
Proof.
  apply (prose_around_python_block_is_ignored (fun _ => ParseOk)
           (py "Here is the code: ") (py "bpy.ops.wm.quit()")
           (py " It needs import socket."));
    [vm_compute; reflexivity | vm_compute; reflexivity | discriminate].
Defined.

(* ================================================================== *)
(** * More on the adapters, the worker and the drain callback *)

(** X5. The list of known cloud models adds nothing to the suffix rule:
    every name in it ends with [-cloud], so a model is a cloud model
    exactly when its name ends with [-cloud]. *)
Theorem cloud_model_is_suffix_rule :
  forall model_name : pystr,
    is_cloud_model model_name = endswith model_name CLOUD_SUFFIX.
Proof.
  intros model_name; unfold is_cloud_model.
  destruct (str_in model_name CLOUD_MODELS) eqn:E; [|reflexivity].
  apply str_in_In in E; simpl in E.
  destruct E as [<- | [<- | [<- | [<- | []]]]]; reflexivity.
Qed.

Section WorkerFacts.

Variable Host : Type.
Variable ast_parse : pystr -> parse_outcome.
Variable completions_create : completion_request -> outcome (option pystr).
Variable chat : chat_request -> outcome chat_response.
Variable DEFENSIVE_RULES : pystr.

Lemma llm_agent_returns_text (option_ prompt system_prompt : pystr) :
  exists text, llm_agent chat option_ prompt system_prompt = Some text.
Proof.
  unfold llm_agent.
  destruct (chat (llm_agent_request option_ prompt system_prompt))
    as [[[text|]|]|e]; eauto.
Qed.


End WorkerFacts.


(** X7. With a local model the worker never reaches its own [except]
    clause: [llm_agent] always returns text, so the run ends either with
    the "no valid code" status or with the drain callback registered,
    never with "Error during generation". *)
Theorem local_model_run_ends_in_two_ways :
  forall (Host : Type) (ast_parse : pystr -> parse_outcome)
         (completions_create : completion_request -> outcome (option pystr))
         (chat : chat_request -> outcome chat_response)
         (DEFENSIVE_RULES model_option user_prompt scene_context_str : pystr)
         (w : world Host),
    str_eqb model_option (py "chatgpt") = false ->
    let w' :=
      ai_code_worker_thread Host ast_parse completions_create chat
        DEFENSIVE_RULES model_option user_prompt scene_context_str w in
    timers w' = timers w ++ REJECTED_RUN
    \/ timers w'
       = timers w
         ++ [SetStatusLog MSG_ANALYZING; SetStatusLog MSG_PROCESSING;
             ProcessQueueTimer].
Proof.
  intros Host ast_parse completions_create chat DEFENSIVE_RULES model_option
    user_prompt scene_context_str w Hlocal; cbv zeta.
  unfold ai_code_worker_thread, generate_code; rewrite Hlocal.
  destruct (llm_agent_returns_text chat model_option
              (code_user_message user_prompt)
              (code_system_prompt DEFENSIVE_RULES scene_context_str))
    as (text & ->).
  destruct (preprocess_code_returns ast_parse text) as ([|x c] & ->).
  - left; simpl; now rewrite <- !app_assoc.
  - right; simpl; now rewrite <- !app_assoc.
Qed.

Lemma local_model_run_ends_in_two_ways_witness :
  timers
    (ai_code_worker_thread unit (fun _ => ParseOk)
       (fun _ => Return None) (fun _ => Return NotAChatResponse)
       [] (py "llama3:8b") (py "add a cube") SCENE_IS_EMPTY
       {| execution_queue := []; timers := []; host := tt |})
  = REJECTED_RUN.
Proof.
  destruct (local_model_run_ends_in_two_ways unit (fun _ => ParseOk)
              (fun _ => Return None) (fun _ => Return NotAChatResponse)
              [] (py "llama3:8b") (py "add a cube") SCENE_IS_EMPTY
              {| execution_queue := []; timers := []; host := tt |}
              eq_refl) as [H | H].
  - exact H.
  - vm_compute in H; discriminate H.
Defined.


(** An [exec] whose code puts itself on the queue again. *)
Definition exec_requeue (code : pystr) (w : world unit)
  : outcome unit * world unit :=
  (Return tt, put unit code w).

Section DrainFacts.

Variable Host : Type.
Variable exec : pystr -> world Host -> outcome unit * world Host.

Lemma run_entry_queue (code : pystr) (w : world Host) :
  execution_queue (snd (run_entry Host exec code w))
  = execution_queue (snd (exec code (update_log Host MSG_EXECUTING w))).
Proof.
  unfold run_entry.
  destruct (exec code (update_log Host MSG_EXECUTING w)) as [[u|e] w1];
    reflexivity.
Qed.



Lemma drain_stuck (fuel : nat) :
  (forall code w0, execution_queue (snd (exec code w0)) <> []) ->
  forall (w : world Host) (ran : list (pystr * outcome unit)),
    execution_queue w <> [] -> drain Host exec fuel w ran = None.
Proof.
  intros Hexec; induction fuel as [|fuel IH]; intros w ran Hne.
  - simpl; destruct (execution_queue w); [congruence | reflexivity].
  - simpl; destruct (execution_queue w) as [|code rest]; [congruence|].
    set (w0 := {| execution_queue := rest; timers := timers w;
                  host := host w |}).
    pose proof (run_entry_queue code w0) as Hq.
    destruct (run_entry Host exec code w0) as [result w1].
    apply IH; simpl in Hq; rewrite Hq; apply Hexec.
Qed.

End DrainFacts.

(** X8. Calling the drain callback again right after a call does nothing:
    the queue it left is empty, so the second call executes no entry,
    changes no state and returns [None] again (when the executed code puts
    no entries on the queue itself). *)
Theorem drain_again_does_nothing :
  forall (Host : Type)
         (exec : pystr -> world Host -> outcome unit * world Host)
         (w : world Host) (fuel : nat),
    (forall code w0,
        execution_queue (snd (exec code w0)) = execution_queue w0) ->
    (List.length (execution_queue w) <= fuel)%nat ->
    exists w' ran,
      process_queue_timer Host exec fuel w = Some (w', ran, TimerDone)
      /\ forall fuel',
          process_queue_timer Host exec fuel' w' = Some (w', [], TimerDone).
Proof.
  intros Host exec w fuel Hexec Hlen.
  destruct (drain_empties Host exec fuel Hexec w [] Hlen)
    as (w' & ran & Hd & He & _).
  exists w', ran; unfold process_queue_timer; split; [now rewrite Hd|].
  intros [|fuel']; simpl; now rewrite He.
Qed.

Lemma drain_again_does_nothing_witness :
  exists w' ran,
    process_queue_timer unit exec_sample 2
      {| execution_queue := [py "raise ValueError"; py "pass"];
         timers := []; host := tt |}
    = Some (w', ran, TimerDone)
    /\ forall fuel',
        process_queue_timer unit exec_sample fuel' w'
        = Some (w', [], TimerDone).
Proof.
  apply (drain_again_does_nothing unit exec_sample
           {| execution_queue := [py "raise ValueError"; py "pass"];
              timers := []; host := tt |} 2).
  - intros code w0; unfold exec_sample.
    destruct (str_eqb code (py "raise ValueError")); reflexivity.
  - simpl; lia.
Defined.



(** X10. The drain callback stops only when it finds the queue empty. If
    every executed entry leaves an entry on the queue (code that puts
    itself back, say), a call on a queue that is not empty does not return
    after any number of rounds. *)
Theorem drain_never_returns_when_refilled :
  forall (Host : Type)
         (exec : pystr -> world Host -> outcome unit * world Host)
         (w : world Host) (fuel : nat),
    (forall code w0, execution_queue (snd (exec code w0)) <> []) ->
    execution_queue w <> [] ->
    process_queue_timer Host exec fuel w = None.
Proof.
  intros Host exec w fuel Hexec Hne; unfold process_queue_timer.
  now rewrite (drain_stuck Host exec fuel Hexec w [] Hne).
Qed.

Lemma drain_never_returns_when_refilled_witness :
  process_queue_timer unit exec_requeue 1000
    {| execution_queue := [py "execution_queue.put(code)"];
       timers := []; host := tt |}
  = None.
Proof.
  apply (drain_never_returns_when_refilled unit exec_requeue
           {| execution_queue := [py "execution_queue.put(code)"];
              timers := []; host := tt |} 1000).
  - intros code w0; unfold exec_requeue; simpl.
    intros E; symmetry in E; now apply app_cons_not_nil in E.
  - discriminate.
Defined.



(* ================================================================== *)
(** * More on the scene snapshot reader, and the statistics *)

Section SceneMore.

Variable round2 : float -> float.
Variable float_repr : float -> pystr.

Lemma object_line_prefix (obj : bpy_object) (line : pystr) :
  object_line round2 float_repr obj = Return line ->
  exists rest, line = 45 :: rest.
Proof.
  unfold object_line, bind.
  destruct (type obj); [|discriminate].
  destruct (location obj); [|discriminate].
  destruct (object_rot round2 obj); [|discriminate].
  destruct (scale obj); [|discriminate].
  destruct (object_mat obj); [|discriminate].
  destruct (name obj); [|discriminate].
  intros E; inversion E; eexists; reflexivity.
Qed.

Lemma collected_lines_prefix (objects : list bpy_object) (line : pystr) :
  In line (collect_lines round2 float_repr objects) ->
  exists rest, line = 45 :: rest.
Proof.
  induction objects as [|obj objects IH]; simpl; [tauto|].
  destruct (object_line round2 float_repr obj) as [l|e] eqn:E; [|exact IH].
  intros [<- | H]; [now apply (object_line_prefix obj) | now apply IH].
Qed.

Lemma collect_lines_app (a b : list bpy_object) :
  collect_lines round2 float_repr (a ++ b)
  = collect_lines round2 float_repr a ++ collect_lines round2 float_repr b.
Proof.
  induction a as [|obj a IH]; [reflexivity|].
  simpl; destruct (object_line round2 float_repr obj); simpl;
    now rewrite IH.
Qed.

End SceneMore.

(** X12. The description is never the empty string, and it is the
    "Scene is empty." sentinel only when no object line was produced: every
    object line starts with a dash, the sentinel does not. *)
Theorem sentinel_means_no_line :
  forall (round2 : float -> float) (float_repr : float -> pystr)
         (scene_objects : list bpy_object),
    (describe_scene round2 float_repr scene_objects = SCENE_IS_EMPTY
     <-> scene_lines round2 float_repr scene_objects = [])
    /\ describe_scene round2 float_repr scene_objects <> [].
Proof.
  intros round2 float_repr scene_objects; unfold describe_scene.
  destruct (scene_lines round2 float_repr scene_objects) as [|l ls] eqn:E.
  - split; [tauto | discriminate].
  - destruct (collected_lines_prefix round2 float_repr
                (firstn MAX_OBJECTS scene_objects) l) as (rest & ->).
    { unfold scene_lines in E; rewrite E; now left. }
    destruct ls; simpl; (split; [split|]); discriminate.
Qed.

(** X13. Objects after the 50th never show in the description: adding
    objects behind at least 50 others changes nothing. *)
Theorem objects_after_cap_are_ignored :
  forall (round2 : float -> float) (float_repr : float -> pystr)
         (first more : list bpy_object),
    (50 <= List.length first)%nat ->
    describe_scene round2 float_repr (first ++ more)
    = describe_scene round2 float_repr first.
Proof.
  intros round2 float_repr first more Hlen.
  unfold describe_scene, scene_lines, MAX_OBJECTS.
  rewrite firstn_app.
  replace (50 - List.length first)%nat with O by lia.
  now rewrite app_nil_r.
Qed.

Lemma objects_after_cap_are_ignored_witness :
  describe_scene (fun c => c) (fun _ => py "0.0")
    (repeat axis_angle_cube 50 ++ [quaternion_cube])
  = describe_scene (fun c => c) (fun _ => py "0.0")
      (repeat axis_angle_cube 50).
Proof.
  apply (objects_after_cap_are_ignored (fun c => c) (fun _ => py "0.0")
           (repeat axis_angle_cube 50) [quaternion_cube]).
  simpl; lia.
Defined.

(** X14. An object whose formatting raises is left out without a trace:
    in a scene of at most 50 objects the description is the one of the
    scene without that object. *)
Theorem failing_object_is_skipped :
  forall (round2 : float -> float) (float_repr : float -> pystr)
         (before after : list bpy_object) (obj : bpy_object)
         (e : py_exception),
    (List.length (before ++ obj :: after) <= 50)%nat ->
    object_line round2 float_repr obj = Raise e ->
    describe_scene round2 float_repr (before ++ obj :: after)
    = describe_scene round2 float_repr (before ++ after).
Proof.
  intros round2 float_repr before after obj e Hlen Hobj.
  unfold describe_scene, scene_lines, MAX_OBJECTS.
  assert (Hlen' : (List.length (before ++ after) <= 50)%nat).
  { rewrite length_app in *; simpl in Hlen; lia. }
  rewrite !firstn_all2 by assumption.
  rewrite !collect_lines_app; simpl; now rewrite Hobj.
Qed.

Lemma failing_object_is_skipped_witness :
  describe_scene (fun c => c) (fun _ => py "0.0")
    ([axis_angle_cube] ++ removed_object :: [quaternion_cube])
  = describe_scene (fun c => c) (fun _ => py "0.0")
      ([axis_angle_cube] ++ [quaternion_cube]).
Proof.
  apply (failing_object_is_skipped (fun c => c) (fun _ => py "0.0")
           [axis_angle_cube] [quaternion_cube] removed_object
           (Exception (py "StructRNA of type Object has been removed"))).
  - simpl; lia.
  - reflexivity.
Defined.


Definition readable_type (obj : bpy_object) : Prop :=
  exists t, type obj = Return t.

Lemma count_type_returns (tag : pystr) (objects : list bpy_object) :
  Forall readable_type objects -> exists n, count_type tag objects = Return n.
Proof.
  induction 1 as [|obj objects (t & Ht) _ (n & IH)]; simpl.
  - now exists O.
  - rewrite Ht, IH; simpl; eauto.
Qed.

Lemma count_type_readable (tag : pystr) (objects : list bpy_object)
  (n : nat) :
  count_type tag objects = Return n -> Forall readable_type objects.
Proof.
  revert n; induction objects as [|obj objects IH]; intros n H;
    [constructor|].
  simpl in H; unfold bind in H.
  destruct (type obj) as [t|] eqn:Ht; [|discriminate].
  destruct (count_type tag objects) as [m|] eqn:Hm; [|discriminate].
  constructor; [now exists t | now apply (IH m)].
Qed.

Lemma count_type_unreadable (tag : pystr) (objects : list bpy_object) :
  ~ Forall readable_type objects ->
  exists e, count_type tag objects = Raise e.
Proof.
  intros H; destruct (count_type tag objects) as [n|e] eqn:E; [|eauto].
  exfalso; apply H; now apply (count_type_readable tag objects n).
Qed.

Lemma counts_are_disjoint (objects : list bpy_object) :
  forall m l c e,
    count_type (py "MESH") objects = Return m ->
    count_type (py "LIGHT") objects = Return l ->
    count_type (py "CAMERA") objects = Return c ->
    count_type (py "EMPTY") objects = Return e ->
    (m + l + c + e <= List.length objects)%nat.
Proof.
  induction objects as [|obj objects IH]; intros m l c e Hm Hl Hc He.
  - inversion Hm; inversion Hl; inversion Hc; inversion He; simpl; lia.
  - simpl in Hm, Hl, Hc, He; unfold bind in Hm, Hl, Hc, He.
    destruct (type obj) as [t|]; [|discriminate].
    destruct (count_type (py "MESH") objects) as [m'|]; [|discriminate].
    destruct (count_type (py "LIGHT") objects) as [l'|]; [|discriminate].
    destruct (count_type (py "CAMERA") objects) as [c'|]; [|discriminate].
    destruct (count_type (py "EMPTY") objects) as [e'|]; [|discriminate].
    specialize (IH m' l' c' e' eq_refl eq_refl eq_refl eq_refl).
    inversion Hm; inversion Hl; inversion Hc; inversion He; subst.
    destruct (str_eqb t (py "MESH")) eqn:E1;
      [apply str_eqb_eq in E1; subst t; simpl; lia|].
    destruct (str_eqb t (py "LIGHT")) eqn:E2;
      [apply str_eqb_eq in E2; subst t; simpl; lia|].
    destruct (str_eqb t (py "CAMERA")) eqn:E3;
      [apply str_eqb_eq in E3; subst t; simpl; lia|].
    destruct (str_eqb t (py "EMPTY")); simpl; lia.
Qed.

(** X16. The statistics count every object of the scene, beyond the first
    50 as well, and no object twice: the meshes, lights, cameras and
    empties together are at most the total. *)
Theorem statistics_counts_add_up :
  forall (scene_objects : list bpy_object) (stats : scene_statistics),
    get_scene_statistics scene_objects = Return stats ->
    total_objects stats = List.length scene_objects
    /\ (meshes stats + lights stats + cameras stats + empties stats
        <= total_objects stats)%nat.
Proof.
  intros scene_objects stats H.
  unfold get_scene_statistics, bind in H.
  destruct (count_type (py "MESH") scene_objects) as [m|] eqn:Hm;
    [|discriminate].
  destruct (count_type (py "LIGHT") scene_objects) as [l|] eqn:Hl;
    [|discriminate].
  destruct (count_type (py "CAMERA") scene_objects) as [c|] eqn:Hc;
    [|discriminate].
  destruct (count_type (py "EMPTY") scene_objects) as [e|] eqn:He;
    [|discriminate].
  inversion H; subst; simpl; split; [reflexivity|].
  now apply counts_are_disjoint.
Qed.

(** Two meshes and a text object: the text is in the total only. *)
Definition three_objects : list bpy_object :=
  [axis_angle_cube; quaternion_cube;
   {| name := Return (py "Text");
      type := Return (py "FONT");
      location := Return []; rotation_mode := Return (py "XYZ");
      rotation_euler := Return []; scale := Return [];
      active_material := Return None |}].

Lemma statistics_counts_add_up_witness :
  get_scene_statistics three_objects
  = Return {| total_objects := 3; meshes := 2; lights := 0;
              cameras := 0; empties := 0 |}
  /\ (2 + 0 + 0 + 0 <= 3)%nat.
Proof.
  split; [reflexivity|].
  apply (statistics_counts_add_up three_objects
           {| total_objects := 3; meshes := 2; lights := 0;
              cameras := 0; empties := 0 |}).
  reflexivity.
Defined.

(** X17. Unlike the description, the statistics do not survive an object
    whose type cannot be read: [get_scene_statistics] returns exactly when
    the type of every object of the scene can be read, and raises
    otherwise. *)
Theorem statistics_need_every_type :
  forall scene_objects : list bpy_object,
    (exists stats, get_scene_statistics scene_objects = Return stats)
    <-> Forall readable_type scene_objects.
Proof.
  intros scene_objects; split.
  - intros (stats & H); unfold get_scene_statistics, bind in H.
    destruct (count_type (py "MESH") scene_objects) as [m|] eqn:Hm;
      [|discriminate].
    exact (count_type_readable (py "MESH") scene_objects m Hm).
  - intros H; unfold get_scene_statistics, bind.
    destruct (count_type_returns (py "MESH") _ H) as (m & ->).
    destruct (count_type_returns (py "LIGHT") _ H) as (l & ->).
    destruct (count_type_returns (py "CAMERA") _ H) as (c & ->).
    destruct (count_type_returns (py "EMPTY") _ H) as (e & ->).
    eauto.
Qed.

(* ================================================================== *)
(** * The Q&A worker and the model menu *)

Section QAFacts.

Variable completions_create : completion_request -> outcome (option pystr).
Variable chat : chat_request -> outcome chat_response.

Lemma failed_adapter_answers_with_text
  (model_option full_prompt : pystr) (e : py_exception) :
  (if str_eqb model_option (py "chatgpt")
   then forall request, completions_create request = Raise e
   else forall request, chat request = Raise e) ->
  generate_answer completions_create chat model_option full_prompt
  = Some (ERROR_PREFIX ++ exn_str e).
Proof.
  unfold generate_answer, openai_agent, llm_agent.
  destruct (str_eqb model_option (py "chatgpt")); intros H; now rewrite H.
Qed.

End QAFacts.

(** X18. The Q&A worker never touches the execution queue and never
    registers the drain callback, whatever the scene and the adapter do;
    it adds at most one entry to the conversation history, for the question
    it was given. *)
Theorem qa_worker_queues_nothing :
  forall (completions_create : completion_request -> outcome (option pystr))
         (chat : chat_request -> outcome chat_response)
         (model_option user_question scene_context_str : pystr)
         (scene_objects : list bpy_object) (s : session),
    let s' :=
      snd (ai_qa_worker_thread completions_create chat model_option
             user_question scene_context_str scene_objects s) in
    queued s' = queued s
    /\ (exists new, callbacks s' = callbacks s ++ new /\ ~ In DrainQueue new)
    /\ (conversation_history s' = conversation_history s
        \/ exists a,
            conversation_history s'
            = conversation_history s
              ++ [ {| question := user_question; answer := a |} ]).
Proof.
  intros completions_create chat model_option user_question
    scene_context_str scene_objects s; cbv zeta.
  unfold ai_qa_worker_thread.
  destruct (get_scene_statistics scene_objects) as [stats|e]; simpl.
  - repeat split.
    + eexists; split; [rewrite <- !app_assoc; reflexivity|].
      simpl; intros [H | [H | [H | []]]]; discriminate.
    + right; eauto.
  - repeat split.
    + eexists; split; [reflexivity|].
      simpl; intros [H | []]; discriminate.
    + now left.
Qed.

(** X19. A failing adapter is answered like any other: when the selected
    adapter raises, the Q&A worker stores the text "Error: " with the
    exception text as the answer in the history, registers it as the
    response, and ends with the status "Answer ready!". *)
Theorem qa_worker_reports_error_as_answer :
  forall (completions_create : completion_request -> outcome (option pystr))
         (chat : chat_request -> outcome chat_response)
         (model_option user_question scene_context_str : pystr)
         (scene_objects : list bpy_object) (s : session)
         (stats : scene_statistics) (e : py_exception),
    get_scene_statistics scene_objects = Return stats ->
    (if str_eqb model_option (py "chatgpt")
     then forall request, completions_create request = Raise e
     else forall request, chat request = Raise e) ->
    ai_qa_worker_thread completions_create chat model_option
      user_question scene_context_str scene_objects s
    = (Return tt,
       {| queued := queued s;
          callbacks :=
            callbacks s
            ++ [StatusLog MSG_PREPARING;
                Response (Some (ERROR_PREFIX ++ exn_str e));
                StatusLog MSG_ANSWER_READY];
          conversation_history :=
            conversation_history s
            ++ [ {| question := user_question;
                    answer := Some (ERROR_PREFIX ++ exn_str e) |} ] |}).
Proof.
  intros completions_create chat model_option user_question
    scene_context_str scene_objects s stats e Hstats Hfail.
  unfold ai_qa_worker_thread; rewrite Hstats; cbv zeta.
  rewrite (failed_adapter_answers_with_text completions_create chat
             model_option _ e Hfail).
  unfold add_callback; simpl; now rewrite <- !app_assoc.
Qed.

Lemma qa_worker_reports_error_as_answer_witness :
  ai_qa_worker_thread
    (fun _ => Raise (Exception (py "Connection error.")))
    (fun _ => Return NotAChatResponse)
    (py "chatgpt") (py "how many lights?") SCENE_IS_EMPTY three_objects
    {| queued := []; callbacks := []; conversation_history := [] |}
  = (Return tt,
     {| queued := [];
        callbacks :=
          [] ++ [StatusLog MSG_PREPARING;
                 Response (Some (ERROR_PREFIX ++ py "Connection error."));
                 StatusLog MSG_ANSWER_READY];
        conversation_history :=
          [] ++ [ {| question := py "how many lights?";
                     answer :=
                       Some (ERROR_PREFIX ++ py "Connection error.") |} ]
     |}).
Proof.
  apply (qa_worker_reports_error_as_answer
           (fun _ => Raise (Exception (py "Connection error.")))
           (fun _ => Return NotAChatResponse)
           (py "chatgpt") (py "how many lights?") SCENE_IS_EMPTY
           three_objects
           {| queued := []; callbacks := []; conversation_history := [] |}
           {| total_objects := 3; meshes := 2; lights := 0;
              cameras := 0; empties := 0 |}
           (Exception (py "Connection error."))).
  - reflexivity.
  - simpl; intros request; reflexivity.
Defined.

(** X20. An object whose type cannot be read ends the Q&A worker before
    it asks the model: the thread ends with an exception, the history is
    unchanged, and the only callback registered is the first status
    message, "Analyzing scene and preparing answer...". *)
Theorem qa_worker_dies_on_unreadable_type :
  forall (completions_create : completion_request -> outcome (option pystr))
         (chat : chat_request -> outcome chat_response)
         (model_option user_question scene_context_str : pystr)
         (scene_objects : list bpy_object) (s : session),
    ~ Forall readable_type scene_objects ->
    exists e,
      ai_qa_worker_thread completions_create chat model_option
        user_question scene_context_str scene_objects s
      = (Raise e,
         {| queued := queued s;
            callbacks := callbacks s ++ [StatusLog MSG_PREPARING];
            conversation_history := conversation_history s |}).
Proof.
  intros completions_create chat model_option user_question
    scene_context_str scene_objects s Hbad.
  unfold ai_qa_worker_thread, get_scene_statistics.
  destruct (count_type_unreadable (py "MESH") scene_objects Hbad)
    as (e & ->).
  exists e; reflexivity.
Qed.

Lemma qa_worker_dies_on_unreadable_type_witness :
  exists e,
    ai_qa_worker_thread
      (fun _ => Return (Some (py "Two."))) (fun _ => Return NotAChatResponse)
      (py "chatgpt") (py "how many lights?") SCENE_IS_EMPTY
      [axis_angle_cube; removed_object]
      {| queued := []; callbacks := []; conversation_history := [] |}
    = (Raise e,
       {| queued := [];
          callbacks := [] ++ [StatusLog MSG_PREPARING];
          conversation_history := [] |}).
Proof.
  apply (qa_worker_dies_on_unreadable_type
           (fun _ => Return (Some (py "Two.")))
           (fun _ => Return NotAChatResponse)
           (py "chatgpt") (py "how many lights?") SCENE_IS_EMPTY
           [axis_angle_cube; removed_object]
           {| queued := []; callbacks := []; conversation_history := [] |}).
  intros H; inversion H as [|? ? _ H2]; subst.
  inversion H2 as [|? ? (t & Ht) _]; subst.
  discriminate Ht.
Defined.

Lemma chatgpt_is_no_cloud_model : ~ In (py "chatgpt") CLOUD_MODELS.
Proof. simpl; intros [H | [H | [H | [H | []]]]]; discriminate. Qed.

Lemma cloud_models_differ : NoDup CLOUD_MODELS.
Proof.
  repeat constructor; simpl;
    intros H; repeat destruct H as [H | H]; try discriminate; exact H.
Qed.

Lemma model_identifiers (local_models : list pystr) :
  map identifier (model_items local_models)
  = py "chatgpt"
    :: local_models
       ++ filter (fun c => negb (str_in c local_models)) CLOUD_MODELS.
Proof.
  unfold model_items; simpl; f_equal.
  rewrite map_app, !map_map; simpl.
  now rewrite !map_id.
Qed.

(** X21. The model menu always offers ChatGPT first and every known cloud
    model, whatever the local models are; and when the local models are
    listed without repetition and none is called [chatgpt], no identifier
    is offered twice: a cloud model that is also a local one is listed
    once. *)
Theorem model_menu_is_complete_and_distinct :
  forall local_models : list pystr,
    (exists rest,
        map identifier (model_items local_models) = py "chatgpt" :: rest)
    /\ (forall c, In c CLOUD_MODELS ->
                  In c (map identifier (model_items local_models)))
    /\ (forall m, In m local_models ->
                  In m (map identifier (model_items local_models)))
    /\ (NoDup local_models -> ~ In (py "chatgpt") local_models ->
        NoDup (map identifier (model_items local_models))).
Proof.
  intros local_models; rewrite model_identifiers.
  split; [eauto | split; [|split]].
  - intros c Hc; right; apply in_or_app.
    destruct (str_in c local_models) eqn:E.
    + left; now apply str_in_In.
    + right; apply filter_In; split; [exact Hc | now rewrite E].
  - intros m Hm; right; apply in_or_app; now left.
  - intros Hnd Hchat; constructor.
    + intros Hin; apply in_app_or in Hin as [Hin | Hin]; [now apply Hchat|].
      apply filter_In in Hin as [Hin _].
      now apply chatgpt_is_no_cloud_model.
    + apply NoDup_app; [exact Hnd | apply NoDup_filter, cloud_models_differ|].
      intros a Ha Hf; apply filter_In in Hf as [_ Hf].
      apply negb_true_iff in Hf.
      apply str_in_In in Ha; congruence.
Qed.
